(** * EnterpriseCouponFormView

    A shallow embedding of [ecommerce/static/js/views/enterprise_coupon_form_view.js]:
    the field bindings of the enterprise coupon form, the catalog lookup that
    follows a change of enterprise customer, and the cancel handler.

    JavaScript values are an inductive type, the view's methods are functions
    in a small state-and-exception monad over the part of the browser the file
    touches (the model's attribute hash and its change listeners, two
    groups of DOM elements, the console and the requests in flight). *)

From Stdlib Require Import ZArith.
From stdpp Require Import gmap strings list fin_maps.

Open Scope string_scope.
Open Scope list_scope.
Set Warnings "-register-all".

(** ** JavaScript values *)

(** Objects keep their own properties in insertion order.  Numbers carry an
    integer: the view never computes with a number, it only tells numbers
    from strings, objects, [null] and [undefined]. *)
Inductive value : Type :=
| VUndefined
| VNull
| VBool (b : bool)
| VNum (n : Z)
| VStr (s : string)
| VArr (items : list value)
| VObj (props : list (string * value)).

Inductive error : Type :=
| TypeError.

(** The completion of an expression: a value, or a thrown error. *)
Inductive completion (A : Type) : Type :=
| Normal (a : A)
| Abrupt (e : error).
Arguments Normal {A} a.
Arguments Abrupt {A} e.

(** Own property [key] of a property list, [undefined] when there is none. *)
Fixpoint own_prop (props : list (string * value)) (key : string) : value :=
  match props with
  | [] => VUndefined
  | (k, v) :: rest => if String.eqb k key then v else own_prop rest key
  end.

(** The same read telling a missing property from one that is there. *)
Fixpoint find_prop (props : list (string * value)) (key : string) : option value :=
  match props with
  | [] => None
  | (k, v) :: rest => if String.eqb k key then Some v else find_prop rest key
  end.

(** Induction on values that reaches the items of an array and the
    properties of an object. *)
Section ValueInduction.

Variable P : value -> Prop.
Hypothesis Hundefined : P VUndefined.
Hypothesis Hnull : P VNull.
Hypothesis Hbool : forall b, P (VBool b).
Hypothesis Hnum : forall n, P (VNum n).
Hypothesis Hstr : forall s, P (VStr s).
Hypothesis Harr : forall items, List.Forall P items -> P (VArr items).
Hypothesis Hobj :
  forall props, List.Forall (fun entry => P (snd entry)) props -> P (VObj props).

Fixpoint value_nested_ind (v : value) : P v :=
  match v with
  | VUndefined => Hundefined
  | VNull => Hnull
  | VBool b => Hbool b
  | VNum n => Hnum n
  | VStr s => Hstr s
  | VArr items =>
      Harr items
        ((fix each (l : list value) : List.Forall P l :=
            match l with
            | [] => @List.Forall_nil _ P
            | x :: l' => @List.Forall_cons _ P x l' (value_nested_ind x) (each l')
            end) items)
  | VObj props =>
      Hobj props
        ((fix each (l : list (string * value))
            : List.Forall (fun entry => P (snd entry)) l :=
            match l with
            | [] => @List.Forall_nil _ _
            | entry :: l' =>
                @List.Forall_cons _ (fun entry => P (snd entry)) entry l'
                  (match entry return P (snd entry) with
                   | (k, x) => value_nested_ind x
                   end)
                  (each l')
            end) props)
  end.

End ValueInduction.

(** [v.key] for the two keys the file reads, [id] and [name].  Reading a
    property of [undefined] or [null] throws a TypeError; primitives and
    arrays have neither property, so the read yields [undefined]. *)
Definition get_prop (v : value) (key : string) : completion value :=
  match v with
  | VUndefined | VNull => Abrupt TypeError
  | VObj props => Normal (own_prop props key)
  | VBool _ | VNum _ | VStr _ | VArr _ => Normal VUndefined
  end.

(** [a === b] against a string literal. *)
Definition strict_eq_str (v : value) (lit : string) : bool :=
  match v with
  | VStr s => String.eqb s lit
  | _ => false
  end.

(** ** The underscore predicates the file calls *)

Module Underscore.

Definition isUndefined (v : value) : bool :=
  match v with VUndefined => true | _ => false end.

Definition isNull (v : value) : bool :=
  match v with VNull => true | _ => false end.

Definition isString (v : value) : bool :=
  match v with VStr _ => true | _ => false end.

(** [_.isEmpty]: [null] and [undefined] are empty, a string or an array is
    empty when its length is 0, anything else when it has no own enumerable
    key; a number or a boolean has none. *)
Definition isEmpty (v : value) : bool :=
  match v with
  | VUndefined | VNull => true
  | VStr s => String.eqb s ""
  | VArr items => match items with [] => true | _ => false end
  | VObj props => match props with [] => true | _ => false end
  | VBool _ | VNum _ => true
  end.

(** [_.isEqual], the comparison [model.set] uses to tell whether an
    attribute changes: deep, and for objects regardless of the order of
    the keys.  Two objects are equal when they have as many keys and every
    key of the first is a key of the second with an equal value.  (A key
    listed twice counts by its first entry, as [own_prop] reads it.) *)
Fixpoint isEqual (a b : value) {struct a} : bool :=
  match a, b with
  | VUndefined, VUndefined => true
  | VNull, VNull => true
  | VBool x, VBool y => Bool.eqb x y
  | VNum x, VNum y => Z.eqb x y
  | VStr x, VStr y => String.eqb x y
  | VArr xs, VArr ys =>
      (fix items_equal (xs ys : list value) : bool :=
         match xs, ys with
         | [], [] => true
         | x :: xs', y :: ys' => isEqual x y && items_equal xs' ys'
         | _, _ => false
         end) xs ys
  | VObj ps, VObj qs =>
      Nat.eqb (length ps) (length qs)
      && (fix props_equal (seen : list string) (ps : list (string * value)) : bool :=
            match ps with
            | [] => true
            | (k, v) :: rest =>
                (if existsb (String.eqb k) seen then true
                 else match find_prop qs k with
                      | Some v' => isEqual v v'
                      | None => false
                      end)
                && props_equal (k :: seen) rest
            end) [] ps
  | _, _ => false
  end.

End Underscore.

(** The loop of [_.isEqual] over the properties of the first object, by
    name: [seen] holds the keys already compared. *)
Definition props_equal (qs : list (string * value))
  : list string -> list (string * value) -> bool :=
  fix props_equal (seen : list string) (ps : list (string * value)) : bool :=
    match ps with
    | [] => true
    | (k, v) :: rest =>
        (if existsb (String.eqb k) seen then true
         else match find_prop qs k with
              | Some v' => Underscore.isEqual v v'
              | None => false
              end)
        && props_equal (k :: seen) rest
    end.

(** ** The page *)

(** What the selectors of this file match.  [catalog_select] holds, for each
    element matched by [select[name=enterprise_customer_catalog]] inside the
    view, whether it carries the [disabled] attribute;
    [customer_selected_option] holds the text of each element matched by
    [select[name=enterprise_customer] option:selected]. *)
Record document : Type := {
  catalog_select : list bool;
  customer_selected_option : list string
}.

(** jQuery's [.text()]: the texts of the matched elements, concatenated. *)
Definition jq_text (texts : list string) : string :=
  String.concat "" texts.

(** jQuery's [.attr('disabled', flag)]: every matched element gets the
    attribute when [flag] is [true] and loses it when [flag] is [false]. *)
Definition jq_attr_disabled (flag : bool) (matched : list bool) : list bool :=
  map (fun _ => flag) matched.

(** ** Field bindings *)

(** [couponBindings['select[name=enterprise_customer]']] *)
Definition enterprise_customer_onGet (val : value) : completion value :=
  if Underscore.isUndefined val || Underscore.isNull val
  then Normal (VStr "")
  else get_prop val "id".

Definition enterprise_customer_onSet (doc : document) (val : value) : value :=
  VObj [("id", val);
        ("name", VStr (jq_text (customer_selected_option doc)))].

(** [couponBindings['select[name=enterprise_customer_catalog]']] *)
Definition enterprise_customer_catalog_onGet (val : value) : completion value :=
  if Underscore.isUndefined val || Underscore.isNull val
  then Normal (VStr "")
  else Normal val.

Definition enterprise_customer_catalog_onSet (doc : document) (val : value) : value :=
  if negb (Underscore.isEmpty val) && Underscore.isString val then val else VNull.

(** [couponBindings['input[name=notify_email]']] *)
Definition notify_email_onSet (doc : document) (val : value) : value :=
  if strict_eq_str val "" then VNull else val.

(** A binding descriptor: the observed attribute, the read and write
    transforms where the binding has them, and [setOptions.validate]. *)
Record binding : Type := {
  observe : string;
  onGet : option (value -> completion value);
  onSet : document -> value -> value;
  setOptions_validate : bool
}.

Definition couponBindings : list (string * binding) :=
  [ ("select[name=enterprise_customer]",
     {| observe := "enterprise_customer";
        onGet := Some enterprise_customer_onGet;
        onSet := enterprise_customer_onSet;
        setOptions_validate := true |});
    ("select[name=enterprise_customer_catalog]",
     {| observe := "enterprise_customer_catalog";
        onGet := Some enterprise_customer_catalog_onGet;
        onSet := enterprise_customer_catalog_onSet;
        setOptions_validate := true |});
    ("input[name=notify_email]",
     {| observe := "notify_email";
        onGet := None;
        onSet := notify_email_onSet;
        setOptions_validate := false |}) ].

(** ** The view and its surroundings *)

(** An entry of [voucherTypes]. *)
Record voucher_type : Type := {
  vt_value : string;
  vt_label : string
}.

(** A line handed to [console.log]: a literal prefix followed by an operand,
    which the source either passes through [JSON.stringify] first or
    appends as it is. *)
Inductive console_entry : Type :=
| LogStringify (prefix : string) (operand : value)
| LogConcat (prefix : string) (operand : value).

(** The options object of one [enterprise_customer_catalogs.fetch] call: its
    [data] filter, and the [enterpriseCustomer] variable its [success] and
    [error] closures have captured. *)
Record fetch_options : Type := {
  data : list (string * value);
  captured_enterpriseCustomer : value
}.

(** The callbacks [setupToggleListeners] registers. *)
Inductive callback : Type :=
| ToggleCouponTypeField
| ToggleVoucherTypeField
| ToggleCodeField
| ToggleQuantityField
| FetchEnterpriseCustomerCatalogs.

Record world : Type := {
  attributes : gmap string value;                (* this.model.attributes *)
  _initAttributes : option (gmap string value);  (* this._initAttributes, if recorded *)
  page : document;
  console : list console_entry;
  in_flight : list fetch_options;                (* catalog fetches not yet answered *)
  listening : list (string * callback);
  view_voucherTypes : list voucher_type          (* this.voucherTypes *)
}.

Definition with_attributes (a : gmap string value) (w : world) : world :=
  {| attributes := a; _initAttributes := _initAttributes w; page := page w;
     console := console w; in_flight := in_flight w; listening := listening w;
     view_voucherTypes := view_voucherTypes w |}.

Definition with_page (d : document) (w : world) : world :=
  {| attributes := attributes w; _initAttributes := _initAttributes w; page := d;
     console := console w; in_flight := in_flight w; listening := listening w;
     view_voucherTypes := view_voucherTypes w |}.

Definition with_console (c : list console_entry) (w : world) : world :=
  {| attributes := attributes w; _initAttributes := _initAttributes w; page := page w;
     console := c; in_flight := in_flight w; listening := listening w;
     view_voucherTypes := view_voucherTypes w |}.

Definition with_in_flight (r : list fetch_options) (w : world) : world :=
  {| attributes := attributes w; _initAttributes := _initAttributes w; page := page w;
     console := console w; in_flight := r; listening := listening w;
     view_voucherTypes := view_voucherTypes w |}.

Definition with_listening (l : list (string * callback)) (w : world) : world :=
  {| attributes := attributes w; _initAttributes := _initAttributes w; page := page w;
     console := console w; in_flight := in_flight w; listening := l;
     view_voucherTypes := view_voucherTypes w |}.

(** ** State and exceptions *)

Inductive outcome (A : Type) : Type :=
| Return (a : A) (w : world)
| Throw (e : error) (w : world).
Arguments Return {A} a w.
Arguments Throw {A} e w.

Definition M (A : Type) : Type := world -> outcome A.

#[global] Instance M_ret : MRet M := fun A a w => Return a w.

#[global] Instance M_bind : MBind M := fun A B f m w =>
  match m w with
  | Return a w' => f a w'
  | Throw e w' => Throw e w'
  end.

Definition lift {A : Type} (c : completion A) : M A := fun w =>
  match c with
  | Normal a => Return a w
  | Abrupt e => Throw e w
  end.

Definition modify (f : world -> world) : M unit := fun w => Return tt (f w).

Definition final_world {A : Type} (o : outcome A) : world :=
  match o with
  | Return _ w => w
  | Throw _ w => w
  end.

(** ** Library calls *)

(** [model.get(attr)] *)
Definition model_get (attr : string) : M value := fun w =>
  Return (default VUndefined (attributes w !! attr)) w.

Definition console_log (entry : console_entry) : M unit :=
  modify (fun w => with_console (console w ++ [entry]) w).

(** [collection.fetch(options)]: the request leaves, its callbacks run
    when the answer comes. *)
Definition collection_fetch (options : fetch_options) : M unit :=
  modify (fun w => with_in_flight (in_flight w ++ [options]) w).

(** ** Methods of the view *)

Definition toggleEnterpriseCatalogField (disable : bool) : M value :=
  modify (fun w =>
    with_page {| catalog_select := jq_attr_disabled disable (catalog_select (page w));
                customer_selected_option := customer_selected_option (page w) |} w);;
  mret VUndefined.

Definition fetchEnterpriseCustomerCatalogs : M value :=
  enterpriseCustomer ← model_get "enterprise_customer";
  id ← lift (get_prop enterpriseCustomer "id");
  if negb (Underscore.isEmpty id) then
    logged ← model_get "enterprise_customer";
    console_log (LogStringify "fetching catalogs for " logged);;
    filter_id ← lift (get_prop enterpriseCustomer "id");
    collection_fetch {| data := [("enterprise_customer", filter_id)];
                        captured_enterpriseCustomer := enterpriseCustomer |};;
    mret VUndefined
  else
    toggleEnterpriseCatalogField true;;
    mret VUndefined.

(** The [success] and [error] closures of the fetch. *)
Definition fetch_success (options : fetch_options) : M value :=
  toggleEnterpriseCatalogField false;;
  mret VUndefined.

Definition fetch_error (options : fetch_options) : M value :=
  name ← lift (get_prop (captured_enterpriseCustomer options) "name");
  console_log (LogConcat "Failed to fetch catalogs for " name);;
  toggleEnterpriseCatalogField true;;
  mret VUndefined.

(** ** Change events of the model *)

(** Modelled from the spec: [toggleCouponTypeField],
    [toggleVoucherTypeField], [toggleCodeField] and [toggleQuantityField]
    are methods of the base view, which is not among the sources; the spec
    gives them as visibility toggles of form fields, so they return and
    leave the state recorded here as it is. *)
Definition base_toggle : M value := mret VUndefined.

(** The callbacks behind the registrations. *)
Definition run_callback (cb : callback) : M value :=
  match cb with
  | FetchEnterpriseCustomerCatalogs => fetchEnterpriseCustomerCatalogs
  | ToggleCouponTypeField | ToggleVoucherTypeField
  | ToggleCodeField | ToggleQuantityField => base_toggle
  end.

(** [s] without the prefix [p], when it starts with it. *)
Fixpoint strip_prefix (p s : string) : option string :=
  match p with
  | EmptyString => Some s
  | String c p' =>
      match s with
      | String c' s' => if Ascii.eqb c c' then strip_prefix p' s' else None
      | EmptyString => None
      end
  end.

(** Whether [set(attrs)] changes the attribute [attr] of the hash
    [current]: [attrs] gives it a value that is not [_.isEqual] to the one
    it has ([undefined] when it has none). *)
Definition is_changed (current attrs : gmap string value) (attr : string) : bool :=
  match attrs !! attr with
  | Some v => negb (Underscore.isEqual (default VUndefined (current !! attr)) v)
  | None => false
  end.

(** Whether [set(attrs)] fires [event]: it fires [change:attr] for every
    attribute it changes.  These are the events [listenTo] is called with
    in this file; a registration for another event runs nothing here. *)
Definition fires (current attrs : gmap string value) (event : string) : bool :=
  match strip_prefix "change:" event with
  | Some attr => is_changed current attrs attr
  | None => false
  end.

(** The callbacks registered for the events that fire run one after the
    other, in the order of their registration; one that throws ends the
    run.  (The library goes attribute by attribute; the lookup is the one
    callback that touches this state, and it is registered for one event,
    so the order among events does not show.) *)
Fixpoint trigger_all (registrations : list (string * callback))
    (fired : string -> bool) : M unit :=
  match registrations with
  | [] => mret tt
  | (event, cb) :: rest =>
      (if fired event then run_callback cb;; mret tt else mret tt);;
      trigger_all rest fired
  end.

(** [model.set(attrs)]: nothing when [attrs] is missing; otherwise every
    key of [attrs] is assigned its value, the other attributes stay, and
    then the change events of the attributes that changed are fired. *)
Definition model_set (attrs : option (gmap string value)) : M unit :=
  match attrs with
  | None => mret tt
  | Some a => fun w =>
      (modify (with_attributes (a ∪ attributes w));;
       trigger_all (listening w) (fires (attributes w) a)) w
  end.

Definition getEditableAttributes : M value :=
  mret (VArr (VStr <$>
    [ "benefit_value"; "category"; "end_date"; "enterprise_customer";
      "enterprise_customer_catalog"; "notify_email"; "invoice_discount_type";
      "invoice_discount_value"; "invoice_number"; "invoice_payment_date";
      "invoice_type"; "max_uses"; "note"; "price"; "start_date";
      "tax_deducted_source"; "title"; "email_domains" ])).

Definition listenTo (event : string) (cb : callback) : M unit :=
  modify (fun w => with_listening (listening w ++ [(event, cb)]) w).

Definition setupToggleListeners : M value :=
  listenTo "change:coupon_type" ToggleCouponTypeField;;
  listenTo "change:voucher_type" ToggleVoucherTypeField;;
  listenTo "change:code" ToggleCodeField;;
  listenTo "change:quantity" ToggleQuantityField;;
  listenTo "change:enterprise_customer" FetchEnterpriseCustomerCatalogs;;
  mret VUndefined.

Definition cancelButtonClicked : M value :=
  fun w => (model_set (_initAttributes w);; mret VUndefined) w.

(** A request in flight is answered: it leaves [in_flight] and its [success]
    or [error] closure runs.  [i] is its place in [in_flight]; answers may
    come in any order. *)
Definition answer (i : nat) (succeeded : bool) : M value := fun w =>
  match in_flight w !! i with
  | None => Return VUndefined w
  | Some options =>
      (modify (with_in_flight (delete i (in_flight w)));;
       if succeeded then fetch_success options else fetch_error options) w
  end.

Section View.

(** The translation lookup of the page. *)
Variable gettext : string -> string.

(** The model's validation, asked by [model.set(..., {validate: true})] with
    the current attributes and the attributes about to be set. *)
Variable valid : gmap string value -> gmap string value -> bool.

Definition voucherTypes : list voucher_type :=
  [ {| vt_value := "Single use";
       vt_label := gettext "Can be used once by one customer" |};
    {| vt_value := "Once per customer";
       vt_label := gettext "Can be used once by multiple customers" |};
    {| vt_value := "Multi-use";
       vt_label := gettext "Can be used multiple times by multiple customers" |};
    {| vt_value := "Multi-use-per-Customer";
       vt_label := gettext "Can be used multiple times by one customer" |} ].

(** A view as [extend] and the constructor leave it: nothing logged, nothing
    in flight, no listener yet. *)
Definition new_view (attrs : gmap string value)
    (init : option (gmap string value)) (doc : document) : world :=
  {| attributes := attrs; _initAttributes := init; page := doc;
     console := []; in_flight := []; listening := [];
     view_voucherTypes := voucherTypes |}.

(** The write half of a binding: the control's value goes through [onSet]
    and is set on the observed attribute; with [setOptions.validate] a value
    the model rejects is not stored and no event is fired. *)
Definition binding_write (b : binding) (val : value) : M value := fun w =>
  let attrs : gmap string value := {[ observe b := onSet b (page w) val ]} in
  if setOptions_validate b && negb (valid (attributes w) attrs)
  then Return VUndefined w
  else (model_set (Some attrs);; mret VUndefined) w.

Definition find_binding (selector : string) : option binding :=
  snd <$> find (fun entry => String.eqb (fst entry) selector) couponBindings.

(** What can happen to the view: its methods are called, a request is
    answered, the user changes a bound control, or another option of the
    customer select becomes the selected one. *)
Inductive operation : Type :=
| CallFetchEnterpriseCustomerCatalogs
| CallToggleEnterpriseCatalogField (disable : bool)
| CallGetEditableAttributes
| CallSetupToggleListeners
| CallCancelButtonClicked
| FetchAnswered (i : nat) (succeeded : bool)
| ControlChanged (selector : string) (val : value)
| OptionSelected (texts : list string).

Definition run (op : operation) : M value :=
  match op with
  | CallFetchEnterpriseCustomerCatalogs => fetchEnterpriseCustomerCatalogs
  | CallToggleEnterpriseCatalogField disable => toggleEnterpriseCatalogField disable
  | CallGetEditableAttributes => getEditableAttributes
  | CallSetupToggleListeners => setupToggleListeners
  | CallCancelButtonClicked => cancelButtonClicked
  | FetchAnswered i succeeded => answer i succeeded
  | ControlChanged selector val =>
      match find_binding selector with
      | Some b => binding_write b val
      | None => mret VUndefined
      end
  | OptionSelected texts =>
      modify (fun w =>
        with_page {| catalog_select := catalog_select (page w);
                     customer_selected_option := texts |} w);;
      mret VUndefined
  end.

(** A run of the event loop: an operation that throws ends there, and the
    next one starts from the state it left. *)
Definition run_all (ops : list operation) (w : world) : world :=
  foldl (fun w op => final_world (run op w)) w ops.

End View.

(** ** Requests and registrations the view makes *)

(** The shape [fetchEnterpriseCustomerCatalogs] gives a request: the captured
    customer is an object, its [id] is not empty and is the filter sent. *)
Definition issued_by_view (options : fetch_options) : Prop :=
  exists props,
    captured_enterpriseCustomer options = VObj props
    /\ data options = [("enterprise_customer", own_prop props "id")]
    /\ Underscore.isEmpty (own_prop props "id") = false.

(** What running the lookup, once or several times, can do to a state:
    the attributes, the snapshot, the listeners, the voucher types and the
    selected option stay, and the requests in flight grow by requests of
    that shape. *)
Definition lookup_frame (w w' : world) : Prop :=
  attributes w' = attributes w
  /\ _initAttributes w' = _initAttributes w
  /\ listening w' = listening w
  /\ view_voucherTypes w' = view_voucherTypes w
  /\ customer_selected_option (page w') = customer_selected_option (page w)
  /\ exists sent, Forall issued_by_view sent /\ in_flight w' = in_flight w ++ sent.

(** The registrations one call of [setupToggleListeners] makes, in order. *)
Definition toggle_listeners : list (string * callback) :=
  [ ("change:coupon_type", ToggleCouponTypeField);
    ("change:voucher_type", ToggleVoucherTypeField);
    ("change:code", ToggleCodeField);
    ("change:quantity", ToggleQuantityField);
    ("change:enterprise_customer", FetchEnterpriseCustomerCatalogs) ].

(** [setupToggleListeners] called [n] times in a row. *)
Definition setup_repeatedly (n : nat) (w : world) : world :=
  Nat.iter n (fun w => final_world (setupToggleListeners w)) w.

(** An attribute hash that holds the empty string neither as catalog nor
    as notification address. *)
Definition no_empty_string (attrs : gmap string value) : Prop :=
  attrs !! "enterprise_customer_catalog" <> Some (VStr "")
  /\ attrs !! "notify_email" <> Some (VStr "").

(** A value whose properties can be read. *)
Definition readable (v : value) : bool :=
  negb (Underscore.isUndefined v || Underscore.isNull v).

(** ** A sample page *)

Module Sample.

Definition acme : value := VObj [("id", VStr "c1"); ("name", VStr "Acme")].

Definition doc : document :=
  {| catalog_select := [false]; customer_selected_option := ["Acme"] |}.

Definition snapshot : gmap string value :=
  {[ "enterprise_customer" := acme; "notify_email" := VNull ]}.

Definition accept_all (current attrs : gmap string value) : bool := true.

(** A view editing a coupon of Acme. *)
Definition editing : world := new_view (fun msgid => msgid) snapshot (Some snapshot) doc.

(** The same view after the user has typed a notification address. *)
Definition edited : world :=
  final_world (run accept_all (ControlChanged "input[name=notify_email]" (VStr "a@b.c")) editing).

(** A view of a new coupon: no customer chosen yet. *)
Definition blank : world :=
  new_view (fun msgid => msgid) {[ "enterprise_customer" := VNull ]} None doc.

End Sample.

Module Scenario.

(** A snapshot that records the customer only. *)
Definition customer_only : gmap string value :=
  {[ "enterprise_customer" := Sample.acme ]}.

(** A snapshot that records the three bound attributes. *)
Definition bound_snapshot : gmap string value :=
  {[ "enterprise_customer" := Sample.acme;
     "enterprise_customer_catalog" := VNull;
     "notify_email" := VNull ]}.

(** A model that rejects every write. *)
Definition reject_all (current attrs : gmap string value) : bool := false.

(** A page on which no catalog select is rendered. *)
Definition bare : document :=
  {| catalog_select := []; customer_selected_option := [] |}.

(** A session: the listeners are set up and the customer is changed twice,
    each change starting a lookup before the one before is answered. *)
Definition two_lookups : list operation :=
  [ CallSetupToggleListeners;
    OptionSelected ["Beta"];
    ControlChanged "select[name=enterprise_customer]" (VStr "c2");
    OptionSelected ["Gamma"];
    ControlChanged "select[name=enterprise_customer]" (VStr "c3") ].

(** The state that session leaves: two requests in flight. *)
Definition racing : world := run_all Sample.accept_all two_lookups Sample.editing.

(** A view on the page without a catalog select. *)
Definition unrendered : world := new_view (fun msgid => msgid) ∅ None bare.

(** A model that holds the customer as a bare id. *)
Definition bare_id : world :=
  new_view (fun msgid => msgid) {[ "enterprise_customer" := VStr "c1" ]} None
    Sample.doc.

(** A view whose snapshot records the customer only, after the user has
    typed a notification address. *)
Definition typed_email : world :=
  final_world
    (run Sample.accept_all
       (ControlChanged "input[name=notify_email]" (VStr "a@b.c"))
       (new_view (fun msgid => msgid) customer_only (Some customer_only)
          Sample.doc)).

(** A state no operation of the view leads to: the lookup registered for
    the change of the notification address, on a model without customer. *)
Definition foreign_listener : world :=
  final_world
    (listenTo "change:notify_email" FetchEnterpriseCustomerCatalogs
       (new_view (fun msgid => msgid) ∅ None Sample.doc)).

(** The sample view once its listeners are set up. *)
Definition listened : world := final_world (setupToggleListeners Sample.editing).

(** A coupon that had no customer when the view was made: the listeners
    are set up and a customer is picked. *)
Definition no_customer : gmap string value := {[ "enterprise_customer" := VNull ]}.

Definition picked : world :=
  run_all Sample.accept_all
    [ CallSetupToggleListeners;
      OptionSelected ["Beta"];
      ControlChanged "select[name=enterprise_customer]" (VStr "c2") ]
    (new_view (fun msgid => msgid) no_customer (Some no_customer) Sample.doc).

End Scenario.

(** ** Properties of the transforms *)

Section Properties.

Context (gettext : string -> string).
Context (valid : gmap string value -> gmap string value -> bool).

Lemma isEmpty_string (s : string) :
  Underscore.isEmpty (VStr s) = false <-> s <> "".
Proof.
  simpl. destruct (String.eqb_spec s ""); split; congruence.
Qed.

Lemma catalog_onSet_string doc (s : string) :
  s <> "" -> enterprise_customer_catalog_onSet doc (VStr s) = VStr s.
Proof.
  intros Hs. unfold enterprise_customer_catalog_onSet.
  apply isEmpty_string in Hs. rewrite Hs. reflexivity.
Qed.

Lemma catalog_onSet_cases doc (v : value) :
  (exists s, s <> "" /\ v = VStr s /\ enterprise_customer_catalog_onSet doc v = v)
  \/ enterprise_customer_catalog_onSet doc v = VNull.
Proof.
  destruct v as [| | b | n | s | items | props]; try (right; reflexivity).
  - destruct (String.eqb_spec s "") as [-> | Hne].
    + right. reflexivity.
    + left. exists s. repeat split; auto using catalog_onSet_string.
  - right. unfold enterprise_customer_catalog_onSet. simpl.
    rewrite andb_false_r. reflexivity.
  - right. unfold enterprise_customer_catalog_onSet. simpl.
    rewrite andb_false_r. reflexivity.
Qed.

(** C4: the write transform of the enterprise_customer_catalog binding sends
    the empty string and every value that is not a string to null, sends
    every non-empty string to itself, and is idempotent. *)
Theorem catalog_onSet_spec doc :
  enterprise_customer_catalog_onSet doc (VStr "") = VNull
  /\ (forall v, Underscore.isString v = false ->
        enterprise_customer_catalog_onSet doc v = VNull)
  /\ (forall s, s <> "" -> enterprise_customer_catalog_onSet doc (VStr s) = VStr s)
  /\ (forall v, enterprise_customer_catalog_onSet doc
                  (enterprise_customer_catalog_onSet doc v)
                = enterprise_customer_catalog_onSet doc v).
Proof.
  split; [reflexivity |]. split; [| split].
  - intros v Hv. unfold enterprise_customer_catalog_onSet.
    rewrite Hv, andb_false_r. reflexivity.
  - apply catalog_onSet_string.
  - intros v. destruct (catalog_onSet_cases doc v) as [(s & Hs & -> & Heq) | Hnull].
    + rewrite Heq. exact Heq.
    + rewrite Hnull. reflexivity.
Qed.

(** C6: the write transform of the notify_email binding sends the empty
    string to null and every other string to itself. *)
Theorem notify_email_onSet_spec doc :
  notify_email_onSet doc (VStr "") = VNull
  /\ (forall s, s <> "" -> notify_email_onSet doc (VStr s) = VStr s).
Proof.
  split; [reflexivity |].
  intros s Hs. unfold notify_email_onSet. simpl.
  destruct (String.eqb_spec s ""); congruence.
Qed.

Lemma notify_email_onSet_other doc (v : value) :
  Underscore.isString v = false -> notify_email_onSet doc v = v.
Proof. destruct v; simpl; intros; congruence || reflexivity. Qed.

Lemma jq_text_single (t : string) : jq_text [t] = t.
Proof. reflexivity. Qed.

(** C7: the read transform of the enterprise_customer binding sends
    undefined and null to the empty string and any other value to its [id]
    property, which it can always read; the write transform builds
    [{id: val, name: text}] from the text of the selected option. *)
Theorem enterprise_customer_transforms :
  enterprise_customer_onGet VUndefined = Normal (VStr "")
  /\ enterprise_customer_onGet VNull = Normal (VStr "")
  /\ (forall v, v <> VUndefined -> v <> VNull ->
        enterprise_customer_onGet v = get_prop v "id"
        /\ exists x, get_prop v "id" = Normal x)
  /\ (forall props, enterprise_customer_onGet (VObj props)
                    = Normal (own_prop props "id"))
  /\ (forall doc val text, customer_selected_option doc = [text] ->
        enterprise_customer_onSet doc val
        = VObj [("id", val); ("name", VStr text)]).
Proof.
  repeat split; try reflexivity.
  - destruct v; congruence || reflexivity.
  - destruct v; try congruence; eexists; reflexivity.
  - intros doc val text Hsel. unfold enterprise_customer_onSet.
    rewrite Hsel, jq_text_single. reflexivity.
Qed.

(** ** Properties of the methods *)

Ltac step_monad :=
  unfold mbind, M_bind, mret, M_ret, modify, lift, model_get,
    console_log, collection_fetch, toggleEnterpriseCatalogField, listenTo;
  cbn [attributes _initAttributes page console in_flight listening
       view_voucherTypes with_attributes with_page with_console
       with_in_flight with_listening final_world].

(** C5: whatever the state, [getEditableAttributes] returns one and the same
    array of 18 names and leaves the state as it found it. *)
Theorem getEditableAttributes_fixed :
  exists names : list string,
    length names = 18%nat
    /\ NoDup names
    /\ names !! 0%nat = Some "benefit_value"
    /\ names !! 17%nat = Some "email_domains"
    /\ forall w, getEditableAttributes w = Return (VArr (VStr <$> names)) w.
Proof.
  eexists. split; [| split; [| split; [| split]]]; cycle 4.
  - intros w. reflexivity.
  - reflexivity.
  - apply (bool_decide_unpack _). vm_compute. reflexivity.
  - reflexivity.
  - reflexivity.
Qed.

Lemma app_singleton_neq {A : Type} (l : list A) (x : A) : l <> l ++ [x].
Proof.
  intros Heq. apply (f_equal length) in Heq.
  rewrite length_app in Heq. simpl in Heq. lia.
Qed.

(** The two ways [fetchEnterpriseCustomerCatalogs] ends once [id] is read. *)
Lemma fetch_with_id w enterpriseCustomer v :
  model_get "enterprise_customer" w = Return enterpriseCustomer w ->
  get_prop enterpriseCustomer "id" = Normal v ->
  fetchEnterpriseCustomerCatalogs w =
    if Underscore.isEmpty v
    then Return VUndefined
           (with_page {| catalog_select :=
                           jq_attr_disabled true (catalog_select (page w));
                         customer_selected_option :=
                           customer_selected_option (page w) |} w)
    else Return VUndefined
           (with_in_flight
              (in_flight w ++
                 [{| data := [("enterprise_customer", v)];
                     captured_enterpriseCustomer := enterpriseCustomer |}])
              (with_console
                 (console w ++
                    [LogStringify "fetching catalogs for " enterpriseCustomer]) w)).
Proof.
  unfold fetchEnterpriseCustomerCatalogs. step_monad.
  intros Hget Hid. injection Hget as Hget. rewrite Hget, Hid.
  destruct (Underscore.isEmpty v); cbn [negb]; step_monad.
  - reflexivity.
  - rewrite Hget. reflexivity.
Qed.

(** C1: for every value [v] read from [enterprise_customer.id], the call
    issues a fetch of the catalog collection filtered by [v] exactly when
    [v] is not empty; when [v] is empty every matched catalog select is
    disabled at once and no request leaves. *)
Theorem fetch_iff_id_not_empty w enterpriseCustomer v :
  model_get "enterprise_customer" w = Return enterpriseCustomer w ->
  get_prop enterpriseCustomer "id" = Normal v ->
  exists w', fetchEnterpriseCustomerCatalogs w = Return VUndefined w'
    /\ (Underscore.isEmpty v = false <->
          in_flight w' = in_flight w ++
            [{| data := [("enterprise_customer", v)];
                captured_enterpriseCustomer := enterpriseCustomer |}])
    /\ (Underscore.isEmpty v = false -> page w' = page w)
    /\ (Underscore.isEmpty v = true ->
          in_flight w' = in_flight w
          /\ catalog_select (page w') = (fun _ => true) <$> catalog_select (page w)).
Proof.
  intros Hget Hid. rewrite (fetch_with_id w enterpriseCustomer v Hget Hid).
  destruct (Underscore.isEmpty v); eexists; (split; [reflexivity |]).
  - cbn [in_flight page with_page catalog_select]. repeat split; try discriminate.
    intros Habs. destruct (app_singleton_neq _ _ Habs).
  - cbn [in_flight page with_in_flight with_console]. repeat split; discriminate.
Qed.

(** For an [id] that is a string, not empty means not the empty string. *)
Lemma fetch_iff_string_id_not_empty w enterpriseCustomer (s : string) :
  model_get "enterprise_customer" w = Return enterpriseCustomer w ->
  get_prop enterpriseCustomer "id" = Normal (VStr s) ->
  s <> "" <->
  in_flight (final_world (fetchEnterpriseCustomerCatalogs w))
  = in_flight w ++
      [{| data := [("enterprise_customer", VStr s)];
          captured_enterpriseCustomer := enterpriseCustomer |}].
Proof.
  intros Hget Hid. rewrite (fetch_with_id w enterpriseCustomer _ Hget Hid).
  rewrite <- isEmpty_string.
  destruct (Underscore.isEmpty (VStr s));
    cbn [final_world in_flight with_page with_in_flight with_console].
  - split; [discriminate |]. intros Habs. destruct (app_singleton_neq _ _ Habs).
  - split; reflexivity.
Qed.

Lemma fetch_type_error w enterpriseCustomer :
  model_get "enterprise_customer" w = Return enterpriseCustomer w ->
  enterpriseCustomer = VNull \/ enterpriseCustomer = VUndefined ->
  fetchEnterpriseCustomerCatalogs w = Throw TypeError w.
Proof.
  intros Hget Hec. unfold fetchEnterpriseCustomerCatalogs. step_monad.
  injection Hget as Hget. rewrite Hget. destruct Hec as [-> | ->]; reflexivity.
Qed.

(** C9: [.id] is read before the emptiness test, so with the attribute
    null, undefined or missing the call throws a TypeError and nothing is
    disabled; with any other value the call returns. *)
Theorem fetch_throws_without_customer w enterpriseCustomer :
  model_get "enterprise_customer" w = Return enterpriseCustomer w ->
  (enterpriseCustomer = VNull \/ enterpriseCustomer = VUndefined ->
     fetchEnterpriseCustomerCatalogs w = Throw TypeError w)
  /\ (enterpriseCustomer <> VNull -> enterpriseCustomer <> VUndefined ->
        exists w', fetchEnterpriseCustomerCatalogs w = Return VUndefined w').
Proof.
  intros Hget. split.
  - apply fetch_type_error, Hget.
  - intros Hnull Hundef.
    assert (exists v, get_prop enterpriseCustomer "id" = Normal v) as [v Hid]
      by (destruct enterpriseCustomer; try congruence; eexists; reflexivity).
    rewrite (fetch_with_id w enterpriseCustomer v Hget Hid).
    destruct (Underscore.isEmpty v); eexists; reflexivity.
Qed.

Lemma model_get_missing w :
  attributes w !! "enterprise_customer" = None ->
  model_get "enterprise_customer" w = Return VUndefined w.
Proof. intros Hnone. unfold model_get. rewrite Hnone. reflexivity. Qed.

(** A request issued by the method has captured an object. *)
Lemma fetch_captures_object w0 w1 r options :
  fetchEnterpriseCustomerCatalogs w0 = Return r w1 ->
  in_flight w1 = in_flight w0 ++ [options] ->
  exists props, captured_enterpriseCustomer options = VObj props.
Proof.
  intros Hcall Hnew.
  destruct (get_prop (default VUndefined (attributes w0 !! "enterprise_customer")) "id")
    as [v | e] eqn:Hid.
  - rewrite (fetch_with_id w0 _ v eq_refl Hid) in Hcall.
    destruct (Underscore.isEmpty v) eqn:Hempty; injection Hcall as _ <-.
    + cbn [in_flight with_page] in Hnew. destruct (app_singleton_neq _ _ Hnew).
    + cbn [in_flight with_in_flight] in Hnew.
      apply app_inj_tail in Hnew as [_ <-]. cbn [captured_enterpriseCustomer].
      destruct (default VUndefined _); try discriminate Hid;
        try (injection Hid as <-; discriminate Hempty).
      eexists. reflexivity.
  - rewrite (fetch_type_error w0 _ eq_refl) in Hcall; [discriminate |].
    destruct (default VUndefined _); try discriminate Hid; auto.
Qed.

(** C2: whatever state the catalog select is in when the answer to a fetch
    started by [fetchEnterpriseCustomerCatalogs] arrives, a success leaves
    every matched select enabled, an error leaves every one disabled and
    adds one line to the console, and neither throws. *)
Theorem answer_sets_catalog_control w0 w1 options w i :
  fetchEnterpriseCustomerCatalogs w0 = Return VUndefined w1 ->
  in_flight w1 = in_flight w0 ++ [options] ->
  in_flight w !! i = Some options ->
  (exists w', answer i true w = Return VUndefined w'
     /\ catalog_select (page w') = (fun _ => false) <$> catalog_select (page w)
     /\ console w' = console w)
  /\ (exists w' name, answer i false w = Return VUndefined w'
        /\ catalog_select (page w') = (fun _ => true) <$> catalog_select (page w)
        /\ get_prop (captured_enterpriseCustomer options) "name" = Normal name
        /\ console w' = console w ++ [LogConcat "Failed to fetch catalogs for " name]).
Proof.
  intros Hcall Hnew Hat.
  destruct (fetch_captures_object _ _ _ _ Hcall Hnew) as [props Hobj].
  unfold answer. rewrite Hat. split.
  - eexists. split; [reflexivity |]. split; reflexivity.
  - unfold fetch_error. step_monad. rewrite Hobj. cbn [get_prop].
    do 2 eexists. split; [reflexivity |]. repeat split.
Qed.

(** ** Change events *)

(** The three ways [fetchEnterpriseCustomerCatalogs] can end. *)
Lemma fetch_outcome w :
  let customer := default VUndefined (attributes w !! "enterprise_customer") in
  (readable customer = false
   /\ fetchEnterpriseCustomerCatalogs w = Throw TypeError w)
  \/ (readable customer = true
      /\ (forall props, customer = VObj props ->
            Underscore.isEmpty (own_prop props "id") = true)
      /\ fetchEnterpriseCustomerCatalogs w
         = Return VUndefined
             (with_page {| catalog_select :=
                             jq_attr_disabled true (catalog_select (page w));
                           customer_selected_option :=
                             customer_selected_option (page w) |} w))
  \/ (exists props,
        customer = VObj props
        /\ Underscore.isEmpty (own_prop props "id") = false
        /\ fetchEnterpriseCustomerCatalogs w
           = Return VUndefined
               (with_in_flight
                  (in_flight w ++
                     [{| data := [("enterprise_customer", own_prop props "id")];
                         captured_enterpriseCustomer := VObj props |}])
                  (with_console
                     (console w ++
                        [LogStringify "fetching catalogs for " (VObj props)]) w))).
Proof.
  intros customer.
  assert (model_get "enterprise_customer" w = Return customer w) as Hget
    by reflexivity.
  destruct customer as [| | b | n | s | items | props] eqn:Hc;
    try (left; split; [reflexivity |];
         apply (fetch_type_error w _ Hget); auto; fail);
    try (right; left; split; [reflexivity |]; split; [discriminate |];
         apply (fetch_with_id w _ VUndefined Hget); reflexivity).
  pose proof (fetch_with_id w _ (own_prop props "id") Hget eq_refl) as Hcall.
  destruct (Underscore.isEmpty (own_prop props "id")) eqn:Hempty.
  - right. left. split; [reflexivity |]. split; [| exact Hcall].
    intros props' Heq. injection Heq as <-. exact Hempty.
  - right. right. exists props. auto.
Qed.

Lemma lookup_frame_refl w : lookup_frame w w.
Proof.
  repeat split. exists []. split; [constructor | symmetry; apply app_nil_r].
Qed.

Lemma lookup_frame_trans w1 w2 w3 :
  lookup_frame w1 w2 -> lookup_frame w2 w3 -> lookup_frame w1 w3.
Proof.
  intros (Ha & Hi & Hl & Hv & Hs & sent & Hsent & Hf)
         (Ha' & Hi' & Hl' & Hv' & Hs' & sent' & Hsent' & Hf').
  repeat split; try congruence.
  exists (sent ++ sent'). split; [apply Forall_app; auto |].
  rewrite Hf', Hf, app_assoc. reflexivity.
Qed.

Lemma fetch_lookup_frame w :
  lookup_frame w (final_world (fetchEnterpriseCustomerCatalogs w)).
Proof.
  destruct (fetch_outcome w) as [[_ ->] | [(_ & _ & ->) | (props & _ & Hid & ->)]];
    cbn [final_world].
  - apply lookup_frame_refl.
  - repeat split. exists []. split; [constructor | symmetry; apply app_nil_r].
  - repeat split. eexists. split; [| reflexivity].
    constructor; [| constructor]. exists props. auto.
Qed.

(** A callback returns, or it is the lookup and throws as the lookup does. *)
Lemma run_callback_outcome cb w :
  lookup_frame w (final_world (run_callback cb w))
  /\ ((exists r w', run_callback cb w = Return r w')
      \/ (run_callback cb w = Throw TypeError w
          /\ readable (default VUndefined (attributes w !! "enterprise_customer"))
             = false)).
Proof.
  destruct cb; cbn [run_callback];
    try (split; [apply lookup_frame_refl | left; eexists _, _; reflexivity]).
  split; [apply fetch_lookup_frame |].
  destruct (fetch_outcome w) as [[Hc ->] | [(_ & _ & ->) | (props & _ & _ & ->)]];
    eauto.
Qed.

(** The run of the callbacks of a [set]: what it leaves alone, and how it
    ends. *)
Lemma trigger_all_outcome registrations fired w :
  lookup_frame w (final_world (trigger_all registrations fired w))
  /\ ((exists w', trigger_all registrations fired w = Return tt w')
      \/ (exists w', trigger_all registrations fired w = Throw TypeError w'
            /\ readable (default VUndefined (attributes w !! "enterprise_customer"))
               = false)).
Proof.
  revert w. induction registrations as [| [event cb] rest IH]; intros w.
  - split; [apply lookup_frame_refl | left; eexists; reflexivity].
  - cbn [trigger_all]. unfold mbind, M_bind, mret, M_ret.
    destruct (fired event).
    + destruct (run_callback_outcome cb w) as [Hframe [(r & w1 & Hrun) | [Hrun Hc]]];
        rewrite Hrun in *; cbn [final_world] in Hframe.
      * destruct (IH w1) as [Hframe1 Hend]. split.
        { eapply lookup_frame_trans; eauto. }
        destruct Hend as [(w' & ->) | (w' & -> & Hc)]; [left; eauto | right].
        exists w'. split; [reflexivity |].
        destruct Hframe as (<- & _). exact Hc.
      * split; [exact Hframe | right]. eauto.
    + apply IH.
Qed.

Lemma trigger_all_returns registrations fired w :
  readable (default VUndefined (attributes w !! "enterprise_customer")) = true ->
  exists w', trigger_all registrations fired w = Return tt w'.
Proof.
  intros Hread.
  destruct (trigger_all_outcome registrations fired w)
    as [_ [Hret | (w' & _ & Hc)]]; [exact Hret | congruence].
Qed.

(** Registrations none of which fires run nothing. *)
Lemma trigger_all_silent registrations fired w :
  Forall (fun registration => fired (fst registration) = false) registrations ->
  trigger_all registrations fired w = Return tt w.
Proof.
  induction 1 as [| [event cb] rest Hquiet _ IH]; [reflexivity |].
  cbn [trigger_all fst] in *. unfold mbind, M_bind, mret, M_ret.
  rewrite Hquiet. exact IH.
Qed.

(** Neither does a run in which the lookup is not registered. *)
Lemma trigger_all_without_lookup registrations fired w :
  Forall (fun registration => snd registration <> FetchEnterpriseCustomerCatalogs)
    registrations ->
  trigger_all registrations fired w = Return tt w.
Proof.
  induction 1 as [| [event cb] rest Hother _ IH]; [reflexivity |].
  cbn [trigger_all snd] in *. unfold mbind, M_bind, mret, M_ret.
  destruct (fired event); [| exact IH].
  destruct cb; try contradiction; exact IH.
Qed.

Lemma model_set_world (attrs : gmap string value) w :
  model_set (Some attrs) w
  = trigger_all (listening w) (fires (attributes w) attrs)
      (with_attributes (attrs ∪ attributes w) w).
Proof. reflexivity. Qed.

(** What a [set] leaves: the attributes assigned, and otherwise what the
    lookup leaves. *)
Lemma model_set_outcome (attrs : gmap string value) w :
  let assigned := with_attributes (attrs ∪ attributes w) w in
  attributes (final_world (model_set (Some attrs) w)) = attrs ∪ attributes w
  /\ lookup_frame assigned (final_world (model_set (Some attrs) w))
  /\ ((exists w', model_set (Some attrs) w = Return tt w')
      \/ (exists w', model_set (Some attrs) w = Throw TypeError w'
            /\ readable (default VUndefined
                           ((attrs ∪ attributes w) !! "enterprise_customer"))
               = false)).
Proof.
  intros assigned. rewrite model_set_world. fold assigned.
  destruct (trigger_all_outcome (listening w) (fires (attributes w) attrs) assigned)
    as [Hframe Hend].
  split; [| split; [exact Hframe | exact Hend]].
  destruct Hframe as (-> & _). reflexivity.
Qed.

Lemma cancel_unfold w :
  cancelButtonClicked w
  = match _initAttributes w with
    | None => Return VUndefined w
    | Some snap =>
        match model_set (Some snap) w with
        | Return _ w' => Return VUndefined w'
        | Throw e w' => Throw e w'
        end
    end.
Proof.
  unfold cancelButtonClicked. destruct (_initAttributes w); reflexivity.
Qed.

Lemma cancel_final_world w snap :
  _initAttributes w = Some snap ->
  final_world (cancelButtonClicked w) = final_world (model_set (Some snap) w).
Proof.
  intros Hsnap. rewrite cancel_unfold, Hsnap.
  destruct (model_set (Some snap) w); reflexivity.
Qed.

(** A [set] changes the attributes and, through the lookup, the catalog
    selects, the console and the requests in flight; nothing else. *)
Lemma model_set_frame (attrs : option (gmap string value)) w :
  let w' := final_world (model_set attrs w) in
  _initAttributes w' = _initAttributes w
  /\ listening w' = listening w
  /\ view_voucherTypes w' = view_voucherTypes w
  /\ customer_selected_option (page w') = customer_selected_option (page w)
  /\ exists sent, Forall issued_by_view sent /\ in_flight w' = in_flight w ++ sent.
Proof.
  destruct attrs as [attrs |]; cbn zeta.
  - destruct (model_set_outcome attrs w) as (_ & (_ & Hi & Hl & Hv & Hs & Hf) & _).
    repeat split; assumption.
  - repeat split. exists []. split; [constructor | symmetry; apply app_nil_r].
Qed.

Lemma binding_write_unfold b val w :
  binding_write valid b val w
  = if setOptions_validate b
       && negb (valid (attributes w) {[ observe b := onSet b (page w) val ]})
    then Return VUndefined w
    else match model_set (Some {[ observe b := onSet b (page w) val ]}) w with
         | Return _ w' => Return VUndefined w'
         | Throw e w' => Throw e w'
         end.
Proof. reflexivity. Qed.

(** A write is refused, leaving the state as it is, or it is a [set] of
    the one attribute. *)
Lemma binding_write_outcome b val w :
  (setOptions_validate b = true
   /\ valid (attributes w) {[ observe b := onSet b (page w) val ]} = false
   /\ binding_write valid b val w = Return VUndefined w)
  \/ ((setOptions_validate b = false
       \/ valid (attributes w) {[ observe b := onSet b (page w) val ]} = true)
      /\ final_world (binding_write valid b val w)
         = final_world (model_set (Some {[ observe b := onSet b (page w) val ]}) w)
      /\ ((exists w', binding_write valid b val w = Return VUndefined w')
          \/ (exists w', binding_write valid b val w = Throw TypeError w'
                /\ readable
                     (default VUndefined
                        (<[ observe b := onSet b (page w) val ]> (attributes w)
                           !! "enterprise_customer")) = false))).
Proof.
  rewrite binding_write_unfold.
  destruct (model_set_outcome {[ observe b := onSet b (page w) val ]} w)
    as (_ & _ & Hend).
  rewrite <- insert_union_singleton_l in Hend.
  assert (final_world
            match model_set (Some {[ observe b := onSet b (page w) val ]}) w with
            | Return _ w' => Return VUndefined w'
            | Throw e w' => Throw e w'
            end
          = final_world (model_set (Some {[ observe b := onSet b (page w) val ]}) w)
          /\ ((exists w', match model_set (Some {[ observe b := onSet b (page w) val ]}) w with
                          | Return _ w' => Return VUndefined w'
                          | Throw e w' => Throw e w'
                          end = Return VUndefined w')
              \/ (exists w', match model_set (Some {[ observe b := onSet b (page w) val ]}) w with
                             | Return _ w' => Return VUndefined w'
                             | Throw e w' => Throw e w'
                             end = Throw TypeError w'
                    /\ readable
                         (default VUndefined
                            (<[ observe b := onSet b (page w) val ]> (attributes w)
                               !! "enterprise_customer")) = false))) as Hset.
  { destruct Hend as [(w' & ->) | (w' & -> & Hc)]; split; eauto. }
  destruct (setOptions_validate b); cbn [andb].
  - destruct (valid _ _); cbn [negb].
    + right. destruct Hset. repeat split; auto.
    + left. repeat split.
  - right. destruct Hset. repeat split; auto.
Qed.

Lemma binding_write_attributes b val w :
  attributes (final_world (binding_write valid b val w)) = attributes w
  \/ attributes (final_world (binding_write valid b val w))
     = <[ observe b := onSet b (page w) val ]> (attributes w).
Proof.
  destruct (binding_write_outcome b val w) as [(_ & _ & ->) | (_ & -> & _)].
  - left. reflexivity.
  - right.
    destruct (model_set_outcome {[ observe b := onSet b (page w) val ]} w)
      as (-> & _).
    symmetry. apply insert_union_singleton_l.
Qed.

(** C10: the write transform of the enterprise_customer binding answers
    every input, the empty string included, with an object carrying that
    input as [id]; a write through the binding therefore leaves the
    attribute as it was or stores such an object, never null or undefined,
    where the catalog binding stores null for the empty string. *)
Theorem enterprise_customer_onSet_object :
  (forall doc val, exists name,
      enterprise_customer_onSet doc val = VObj [("id", val); ("name", VStr name)])
  /\ (forall doc val, enterprise_customer_onSet doc val <> VNull
                      /\ enterprise_customer_onSet doc val <> VUndefined)
  /\ (forall b val w, find_binding "select[name=enterprise_customer]" = Some b ->
        exists w', binding_write valid b val w = Return VUndefined w'
          /\ (attributes w' !! "enterprise_customer"
                = attributes w !! "enterprise_customer"
              \/ exists name, attributes w' !! "enterprise_customer"
                   = Some (VObj [("id", val); ("name", VStr name)])))
  /\ (forall doc, enterprise_customer_catalog_onSet doc (VStr "") = VNull).
Proof.
  split; [| split; [| split]].
  - intros doc val. eexists. reflexivity.
  - intros doc val. split; discriminate.
  - intros b val w Hb. injection Hb as <-.
    match goal with |- context [binding_write valid ?b val w] =>
      pose proof (binding_write_attributes b val w) as Hattr;
      destruct (binding_write_outcome b val w)
        as [(_ & _ & Hcall) | (_ & _ & [(w' & Hcall) | (w' & _ & Hc)])]
    end.
    + eexists. split; [exact Hcall |]. left. reflexivity.
    + exists w'. split; [exact Hcall |]. rewrite Hcall in Hattr.
      cbn [final_world observe onSet] in Hattr.
      destruct Hattr as [-> | ->]; [left; reflexivity | right].
      eexists. apply lookup_insert_eq.
    + cbn [observe onSet] in Hc. rewrite lookup_insert_eq in Hc. discriminate.
  - reflexivity.
Qed.

Lemma cancel_attributes w (snapshot : gmap string value) :
  _initAttributes w = Some snapshot ->
  attributes (final_world (cancelButtonClicked w)) = snapshot ∪ attributes w.
Proof.
  intros Hsnap. rewrite (cancel_final_world w snapshot Hsnap).
  apply model_set_outcome.
Qed.


(** Attributes the snapshot does not record are left as they are. *)
Lemma cancel_keeps_other_attributes w (snapshot : gmap string value) attr :
  _initAttributes w = Some snapshot ->
  snapshot !! attr = None ->
  attributes (final_world (cancelButtonClicked w)) !! attr = attributes w !! attr.
Proof.
  intros Hsnap Hnone. rewrite (cancel_attributes w snapshot Hsnap).
  apply lookup_union_r, Hnone.
Qed.

(** When the model has no attribute beyond the snapshot's, cancel gives the
    snapshot back whole. *)
Lemma cancel_gives_snapshot w (snapshot : gmap string value) :
  _initAttributes w = Some snapshot ->
  dom (attributes w) ⊆ dom snapshot ->
  attributes (final_world (cancelButtonClicked w)) = snapshot.
Proof.
  intros Hsnap Hdom. rewrite (cancel_attributes w snapshot Hsnap).
  apply map_eq. intros attr.
  destruct (snapshot !! attr) as [v |] eqn:Hv.
  - apply lookup_union_Some_l, Hv.
  - rewrite lookup_union_r by exact Hv.
    apply not_elem_of_dom. intros Hin. apply Hdom in Hin.
    apply not_elem_of_dom in Hv. contradiction.
Qed.

(** Without a recorded snapshot cancel changes nothing. *)
Lemma cancel_without_snapshot w :
  _initAttributes w = None -> cancelButtonClicked w = Return VUndefined w.
Proof. intros Hnone. rewrite cancel_unfold, Hnone. reflexivity. Qed.

Lemma answer_unfold i succeeded w :
  final_world (answer i succeeded w)
  = match in_flight w !! i with
    | None => w
    | Some options =>
        final_world
          ((if succeeded then fetch_success options else fetch_error options)
             (with_in_flight (delete i (in_flight w)) w))
    end.
Proof.
  unfold answer. destruct (in_flight w !! i); reflexivity.
Qed.

(** What an answer leaves alone, whoever sent the request. *)
Lemma answer_frame i succeeded w :
  let w' := final_world (answer i succeeded w) in
  attributes w' = attributes w
  /\ _initAttributes w' = _initAttributes w
  /\ listening w' = listening w
  /\ view_voucherTypes w' = view_voucherTypes w
  /\ customer_selected_option (page w') = customer_selected_option (page w)
  /\ (in_flight w' = in_flight w \/ in_flight w' = delete i (in_flight w)).
Proof.
  cbn zeta. rewrite answer_unfold.
  destruct (in_flight w !! i) as [options |]; [| repeat split; auto].
  destruct succeeded.
  - repeat split; auto.
  - unfold fetch_error. step_monad.
    destruct (get_prop _ "name"); repeat split; auto.
Qed.

(** How one operation changes what the lookup does not touch. *)
Lemma run_frame op w :
  let w' := final_world (run valid op w) in
  _initAttributes w' = _initAttributes w
  /\ view_voucherTypes w' = view_voucherTypes w
  /\ (listening w' = listening w
      \/ (op = CallSetupToggleListeners
          /\ listening w' = listening w ++ toggle_listeners)).
Proof.
  destruct op as [| disable | | | | i succeeded | selector val | texts];
    cbn [run]; cbn zeta.
  - destruct (fetch_lookup_frame w) as (_ & Hi & Hl & Hv & _). auto.
  - repeat split; auto.
  - repeat split; auto.
  - repeat split. right. split; [reflexivity |].
    unfold setupToggleListeners, listenTo, modify, mbind, M_bind, mret, M_ret.
    cbn [final_world listening with_listening]. rewrite <- !app_assoc. reflexivity.
  - destruct (_initAttributes w) as [snap |] eqn:Hsnap.
    + rewrite (cancel_final_world w snap Hsnap).
      destruct (model_set_frame (Some snap) w) as (Hi & Hl & Hv & _).
      rewrite Hi, Hv, Hl. auto.
    + rewrite (cancel_without_snapshot w Hsnap). cbn [final_world]. auto.
  - destruct (answer_frame i succeeded w) as (_ & Hi & Hl & Hv & _). auto.
  - destruct (find_binding selector) as [b |]; [| repeat split; auto].
    destruct (binding_write_outcome b val w) as [(_ & _ & ->) | (_ & -> & _)].
    + repeat split; auto.
    + destruct (model_set_frame (Some {[ observe b := onSet b (page w) val ]}) w)
        as (Hi & Hl & Hv & _). auto.
  - repeat split; auto.
Qed.

(** No operation writes [voucherTypes]. *)
Lemma run_keeps_voucherTypes op w :
  view_voucherTypes (final_world (run valid op w)) = view_voucherTypes w.
Proof. apply run_frame. Qed.

Lemma run_all_keeps_voucherTypes ops w :
  view_voucherTypes (run_all valid ops w) = view_voucherTypes w.
Proof.
  unfold run_all. revert w.
  induction ops as [| op ops IH]; intros w; [reflexivity |].
  cbn [foldl]. rewrite IH. apply run_keeps_voucherTypes.
Qed.

(** C8: the voucher types are four value and label pairs in a fixed order,
    and after any run of operations on a view that holds them the view
    still holds the same list. *)
Theorem voucherTypes_fixed :
  length (voucherTypes gettext) = 4%nat
  /\ vt_value <$> voucherTypes gettext
     = ["Single use"; "Once per customer"; "Multi-use"; "Multi-use-per-Customer"]
  /\ vt_label <$> voucherTypes gettext
     = gettext <$> ["Can be used once by one customer";
                    "Can be used once by multiple customers";
                    "Can be used multiple times by multiple customers";
                    "Can be used multiple times by one customer"]
  /\ forall w ops,
       view_voucherTypes w = voucherTypes gettext ->
       view_voucherTypes (run_all valid ops w) = voucherTypes gettext.
Proof.
  split; [reflexivity |]. split; [reflexivity |]. split; [reflexivity |].
  intros w ops Hw. rewrite run_all_keeps_voucherTypes. exact Hw.
Qed.

End Properties.

Ltac unfold_monad :=
  unfold mbind, M_bind, mret, M_ret, modify, lift, model_get,
    console_log, collection_fetch, toggleEnterpriseCatalogField, listenTo;
  cbn [attributes _initAttributes page console in_flight listening
       view_voucherTypes with_attributes with_page with_console
       with_in_flight with_listening final_world].

(** ** Round trips through the bindings *)

Section Bindings.

(** X1: what the catalog select shows survives a write and a read: every
    string the control can hold comes back from [onGet] after [onSet], the
    empty string included (it is stored as null and read back as the empty
    string); and a stored catalog, null or a non-empty string, comes back
    from [onSet] after [onGet]. *)
Theorem catalog_binding_round_trip doc :
  (forall s, enterprise_customer_catalog_onGet
               (enterprise_customer_catalog_onSet doc (VStr s))
             = Normal (VStr s))
  /\ (forall stored,
        stored = VNull \/ (exists s, s <> "" /\ stored = VStr s) ->
        exists shown, enterprise_customer_catalog_onGet stored = Normal shown
          /\ enterprise_customer_catalog_onSet doc shown = stored).
Proof.
  split.
  - intros s. destruct (String.eqb_spec s "") as [-> | Hne].
    + reflexivity.
    + rewrite catalog_onSet_string by exact Hne. reflexivity.
  - intros stored [-> | (s & Hne & ->)].
    + exists (VStr ""). split; reflexivity.
    + exists (VStr s). split; [reflexivity |]. apply catalog_onSet_string, Hne.
Qed.

(** Whatever the model holds, the catalog read transform returns, and
    what it hands to the control is never null or undefined; a value that
    is neither passes unchanged. *)
Lemma catalog_onGet_defined (stored : value) :
  exists shown, enterprise_customer_catalog_onGet stored = Normal shown
    /\ shown <> VNull /\ shown <> VUndefined
    /\ (readable stored = true -> shown = stored).
Proof.
  destruct stored; eexists; (split; [reflexivity |]);
    repeat split; try discriminate; reflexivity.
Qed.

(** X2: the customer select gets back the value it wrote: [onGet] after
    [onSet] is the identity on every control value, and a stored customer
    whose name is the text of the selected option is rebuilt by [onSet]
    from what [onGet] reads. *)
Theorem enterprise_customer_binding_round_trip doc :
  (forall val, enterprise_customer_onGet (enterprise_customer_onSet doc val)
               = Normal val)
  /\ (forall id name,
        jq_text (customer_selected_option doc) = name ->
        let stored := VObj [("id", id); ("name", VStr name)] in
        enterprise_customer_onGet stored = Normal id
        /\ enterprise_customer_onSet doc id = stored).
Proof.
  split.
  - intros val. reflexivity.
  - intros id name Htext. split; [reflexivity |].
    unfold enterprise_customer_onSet. rewrite Htext. reflexivity.
Qed.

(** The notify_email write transform never yields the empty string,
    whatever it is given, and applying it twice is applying it once. *)
Lemma notify_email_onSet_never_empty doc (val : value) :
  notify_email_onSet doc val <> VStr ""
  /\ notify_email_onSet doc (notify_email_onSet doc val)
     = notify_email_onSet doc val.
Proof.
  destruct val as [| | b | n | s | items | props];
    try (split; [discriminate | reflexivity]).
  unfold notify_email_onSet. cbn [strict_eq_str].
  destruct (String.eqb_spec s "") as [-> | Hne].
  - split; [discriminate | reflexivity].
  - cbn [strict_eq_str]. destruct (String.eqb_spec s ""); [contradiction |].
    split; [congruence | reflexivity].
Qed.

End Bindings.

(** ** The catalog control and the listeners *)

Section Controls.

Lemma with_page_same w : with_page (page w) w = w.
Proof. destruct w. reflexivity. Qed.

Lemma jq_attr_disabled_twice a b matched :
  jq_attr_disabled b (jq_attr_disabled a matched) = jq_attr_disabled b matched.
Proof. unfold jq_attr_disabled. rewrite map_map. reflexivity. Qed.

Lemma jq_attr_disabled_all flag matched :
  Forall (eq flag) (jq_attr_disabled flag matched).
Proof.
  induction matched as [| x matched IH]; cbn; constructor; auto.
Qed.

Lemma toggle_world disable w :
  toggleEnterpriseCatalogField disable w
  = Return VUndefined
      (with_page {| catalog_select :=
                      jq_attr_disabled disable (catalog_select (page w));
                    customer_selected_option :=
                      customer_selected_option (page w) |} w).
Proof. reflexivity. Qed.

(** X3: of two calls of [toggleEnterpriseCatalogField] only the last one
    counts, so the call is idempotent; it sets the attribute on every
    matched select alike and keeps their number; where the page has no
    catalog select it changes nothing at all. *)
Theorem toggle_last_call_wins (first last : bool) w :
  toggleEnterpriseCatalogField last
    (final_world (toggleEnterpriseCatalogField first w))
  = toggleEnterpriseCatalogField last w
  /\ Forall (eq last)
       (catalog_select (page (final_world (toggleEnterpriseCatalogField last w))))
  /\ length (catalog_select (page (final_world (toggleEnterpriseCatalogField last w))))
     = length (catalog_select (page w))
  /\ (catalog_select (page w) = [] ->
      toggleEnterpriseCatalogField last w = Return VUndefined w).
Proof.
  rewrite !toggle_world. cbn [final_world].
  split; [| split; [| split]].
  - unfold with_page.
    cbn [page catalog_select customer_selected_option attributes
         _initAttributes console in_flight listening view_voucherTypes].
    rewrite jq_attr_disabled_twice. reflexivity.
  - cbn [page with_page catalog_select]. apply jq_attr_disabled_all.
  - cbn [page with_page catalog_select]. unfold jq_attr_disabled.
    apply length_map.
  - intros Hnone. rewrite Hnone. cbn [jq_attr_disabled map].
    f_equal. rewrite <- (with_page_same w) at 3. f_equal.
    destruct (page w) as [sel txt]. cbn in Hnone. subst sel. reflexivity.
Qed.

Lemma setup_world w :
  setupToggleListeners w
  = Return VUndefined (with_listening (listening w ++ toggle_listeners) w).
Proof.
  unfold setupToggleListeners, listenTo, modify, mbind, M_bind, mret, M_ret.
  unfold with_listening.
  cbn [attributes _initAttributes page console in_flight listening
       view_voucherTypes].
  rewrite <- !app_assoc. reflexivity.
Qed.

(** X4: every call of [setupToggleListeners] adds its five registrations
    after the ones already there, whether or not they are there already:
    after [n] calls the list has grown by [n] copies, so by [5 * n]
    entries.  The model, the page, the console and the requests in flight
    are not touched. *)
Theorem setupToggleListeners_accumulates (n : nat) w :
  let w' := setup_repeatedly n w in
  listening w' = listening w ++ mjoin (replicate n toggle_listeners)
  /\ length (listening w') = (length (listening w) + 5 * n)%nat
  /\ attributes w' = attributes w /\ page w' = page w
  /\ console w' = console w /\ in_flight w' = in_flight w.
Proof.
  induction n as [| n IH]; cbn zeta in *.
  - cbn. rewrite app_nil_r. repeat split; lia.
  - destruct IH as (Hl & Hlen & Ha & Hp & Hc & Hf).
    change (setup_repeatedly (S n) w)
      with (final_world (setupToggleListeners (setup_repeatedly n w))).
    rewrite setup_world.
    cbn [final_world listening with_listening attributes page console in_flight].
    rewrite Hl, Ha, Hp, Hc, Hf. repeat split.
    + rewrite <- app_assoc. f_equal. clear.
      induction n as [| n IH]; [reflexivity |].
      change (mjoin (replicate (S n) toggle_listeners))
        with (toggle_listeners ++ mjoin (replicate n toggle_listeners)).
      rewrite <- app_assoc, IH. reflexivity.
    + rewrite !length_app. rewrite Hl in Hlen. rewrite length_app in Hlen.
      cbn [length toggle_listeners] in *. lia.
Qed.

End Controls.


(** ** What counts as a change *)

Section Comparison.

Lemma isEqual_objects ps qs :
  Underscore.isEqual (VObj ps) (VObj qs)
  = Nat.eqb (length ps) (length qs) && props_equal qs [] ps.
Proof. reflexivity. Qed.

Lemma find_prop_app l1 l2 key :
  find_prop (l1 ++ l2) key
  = match find_prop l1 key with
    | Some v => Some v
    | None => find_prop l2 key
    end.
Proof.
  induction l1 as [| [k v] l1 IH]; [reflexivity |].
  cbn [app find_prop]. destruct (String.eqb k key); [reflexivity | exact IH].
Qed.

Lemma props_equal_same rest :
  Forall (fun entry => Underscore.isEqual (snd entry) (snd entry) = true) rest ->
  forall before seen,
    (forall key, existsb (String.eqb key) seen = false ->
                 find_prop before key = None) ->
    props_equal (before ++ rest) seen rest = true.
Proof.
  induction 1 as [| [k v] rest Hv _ IH]; intros before seen Hseen; [reflexivity |].
  cbn [props_equal snd] in *. apply andb_true_iff. split.
  - destruct (existsb (String.eqb k) seen) eqn:Hk; [reflexivity |].
    rewrite find_prop_app, (Hseen k Hk). cbn [find_prop].
    rewrite String.eqb_refl. exact Hv.
  - replace (before ++ (k, v) :: rest) with ((before ++ [(k, v)]) ++ rest)
      by (rewrite <- app_assoc; reflexivity).
    apply IH. intros key Hkey. cbn [existsb] in Hkey.
    apply orb_false_iff in Hkey as [Hne Hkey].
    rewrite find_prop_app, (Hseen key Hkey). cbn [find_prop].
    rewrite String.eqb_sym, Hne. reflexivity.
Qed.

(** A value is equal to itself. *)
Lemma isEqual_refl (v : value) : Underscore.isEqual v v = true.
Proof.
  induction v as [| | b | n | s | items IH | props IH] using value_nested_ind.
  - reflexivity.
  - reflexivity.
  - destruct b; reflexivity.
  - apply Z.eqb_refl.
  - apply String.eqb_refl.
  - induction IH as [| x items Hx _ IHitems]; [reflexivity |].
    change (Underscore.isEqual x x
            && Underscore.isEqual (VArr items) (VArr items) = true).
    rewrite Hx, IHitems. reflexivity.
  - rewrite isEqual_objects, Nat.eqb_refl. cbn [andb].
    apply (props_equal_same props IH []). reflexivity.
Qed.

(** An attribute that [set] gives the value it has does not change. *)
Lemma is_changed_same (current attrs : gmap string value) attr v :
  attrs !! attr = Some v -> current !! attr = Some v ->
  is_changed current attrs attr = false.
Proof.
  intros Ha Hc. unfold is_changed. rewrite Ha, Hc. cbn.
  rewrite isEqual_refl. reflexivity.
Qed.

Lemma is_changed_absent (current attrs : gmap string value) attr :
  attrs !! attr = None -> is_changed current attrs attr = false.
Proof. intros Ha. unfold is_changed. rewrite Ha. reflexivity. Qed.

(** Setting the attributes a second time fires nothing. *)
Lemma fires_nothing_twice (current attrs : gmap string value) event :
  fires (attrs ∪ current) attrs event = false.
Proof.
  unfold fires. destruct (strip_prefix "change:" event) as [attr |]; [| reflexivity].
  destruct (attrs !! attr) as [v |] eqn:Ha.
  - apply (is_changed_same _ _ _ v Ha). apply lookup_union_Some_l, Ha.
  - apply is_changed_absent, Ha.
Qed.

(** The events of the five registrations fire with their attributes. *)
Lemma fires_toggle_listeners (current attrs : gmap string value) registration :
  registration ∈ toggle_listeners ->
  exists attr,
    attr ∈ ["coupon_type"; "voucher_type"; "code"; "quantity"; "enterprise_customer"]
    /\ fires current attrs (fst registration) = is_changed current attrs attr
    /\ (snd registration = FetchEnterpriseCustomerCatalogs ->
        attr = "enterprise_customer").
Proof.
  unfold toggle_listeners. intros Hin.
  repeat (apply elem_of_cons in Hin as [-> | Hin]);
    try (apply elem_of_nil in Hin; contradiction);
    eexists; (split; [| split; [reflexivity |]]);
    try (intros; discriminate); try reflexivity;
    repeat (first [apply list_elem_of_here | apply list_elem_of_further]).
Qed.

End Comparison.

(** ** Requests in flight *)

Section Requests.

Context (gettext : string -> string).
Context (valid : gmap string value -> gmap string value -> bool).

(** The bindings [find_binding] can return. *)
Lemma find_binding_cases selector b :
  find_binding selector = Some b ->
  (observe b = "enterprise_customer"
   /\ onSet b = enterprise_customer_onSet /\ setOptions_validate b = true)
  \/ (observe b = "enterprise_customer_catalog"
      /\ onSet b = enterprise_customer_catalog_onSet
      /\ setOptions_validate b = true)
  \/ (observe b = "notify_email"
      /\ onSet b = notify_email_onSet /\ setOptions_validate b = false).
Proof.
  unfold find_binding, couponBindings. cbn [find fst].
  destruct (String.eqb "select[name=enterprise_customer]" selector).
  { cbn [fmap option_fmap option_map snd]. intros H. injection H as <-.
    left. repeat split. }
  destruct (String.eqb "select[name=enterprise_customer_catalog]" selector).
  { cbn [fmap option_fmap option_map snd]. intros H. injection H as <-.
    right. left. repeat split. }
  destruct (String.eqb "input[name=notify_email]" selector).
  { cbn [fmap option_fmap option_map snd]. intros H. injection H as <-.
    right. right. repeat split. }
  discriminate.
Qed.

(** A run in which no registration of the lookup fires runs nothing. *)
Lemma trigger_all_without_firing_lookup registrations fired w :
  Forall (fun registration =>
            snd registration = FetchEnterpriseCustomerCatalogs ->
            fired (fst registration) = false) registrations ->
  trigger_all registrations fired w = Return tt w.
Proof.
  induction 1 as [| [event cb] rest Hquiet _ IH]; [reflexivity |].
  cbn [trigger_all snd fst] in *. unfold mbind, M_bind, mret, M_ret.
  destruct (fired event); [| exact IH].
  destruct cb; try exact IH. discriminate (Hquiet eq_refl).
Qed.

(** What an answer does when the request came from the view. *)
Lemma answer_outcome w i options (succeeded : bool) :
  in_flight w !! i = Some options ->
  issued_by_view options ->
  exists w', answer i succeeded w = Return VUndefined w'
    /\ in_flight w' = delete i (in_flight w)
    /\ catalog_select (page w')
       = jq_attr_disabled (negb succeeded) (catalog_select (page w))
    /\ customer_selected_option (page w') = customer_selected_option (page w)
    /\ attributes w' = attributes w
    /\ _initAttributes w' = _initAttributes w
    /\ listening w' = listening w
    /\ console w'
       = if succeeded then console w
         else console w ++
                [LogConcat "Failed to fetch catalogs for "
                   (default VUndefined
                      (match get_prop (captured_enterpriseCustomer options) "name"
                       with Normal name => Some name | Abrupt _ => None end))].
Proof.
  intros Hat (props & Hobj & _ & _). unfold answer. rewrite Hat.
  destruct succeeded.
  - eexists. split; [reflexivity |]. repeat split.
  - unfold fetch_error. unfold_monad. rewrite Hobj. cbn [get_prop].
    eexists. split; [reflexivity |]. repeat split.
Qed.

(** How one operation changes the list of requests in flight: it adds
    requests of the view's shape at the end, or takes one away. *)
Lemma run_in_flight op w :
  (exists sent, Forall issued_by_view sent
     /\ in_flight (final_world (run valid op w)) = in_flight w ++ sent)
  \/ (exists i, in_flight (final_world (run valid op w)) = delete i (in_flight w)).
Proof.
  assert (forall w0 : world, in_flight w0 = in_flight w ->
            exists sent, Forall issued_by_view sent
              /\ in_flight w0 = in_flight w ++ sent) as Hsame.
  { intros w0 ->. exists []. split; [constructor | symmetry; apply app_nil_r]. }
  destruct op as [| disable | | | | i succeeded | selector val | texts]; cbn [run].
  - left. apply fetch_lookup_frame.
  - left. apply Hsame. reflexivity.
  - left. apply Hsame. reflexivity.
  - left. rewrite setup_world. apply Hsame. reflexivity.
  - left. destruct (_initAttributes w) as [snap |] eqn:Hsnap.
    + rewrite (cancel_final_world w snap Hsnap). apply model_set_frame.
    + rewrite (cancel_without_snapshot w Hsnap). apply Hsame. reflexivity.
  - destruct (answer_frame i succeeded w) as (_ & _ & _ & _ & _ & [Heq | ->]).
    + left. apply Hsame, Heq.
    + right. eauto.
  - left. destruct (find_binding selector) as [b |]; [| apply Hsame; reflexivity].
    destruct (binding_write_outcome valid b val w) as [(_ & _ & ->) | (_ & -> & _)].
    + apply Hsame. reflexivity.
    + apply model_set_frame.
  - left. apply Hsame. reflexivity.
Qed.

Lemma run_keeps_issued op w :
  Forall issued_by_view (in_flight w) ->
  Forall issued_by_view (in_flight (final_world (run valid op w))).
Proof.
  intros Hall.
  destruct (run_in_flight op w) as [(sent & Hsent & ->) | [i ->]].
  - apply Forall_app. split; assumption.
  - apply Forall_delete, Hall.
Qed.

Lemma run_all_keeps_issued ops w :
  Forall issued_by_view (in_flight w) ->
  Forall issued_by_view (in_flight (run_all valid ops w)).
Proof.
  unfold run_all. revert w.
  induction ops as [| op ops IH]; intros w Hall; [exact Hall |].
  cbn [foldl]. apply IH, run_keeps_issued, Hall.
Qed.

Lemma reached_keeps_issued attrs init doc ops :
  Forall issued_by_view
    (in_flight (run_all valid ops (new_view gettext attrs init doc))).
Proof.
  apply run_all_keeps_issued. constructor.
Qed.

(** X5: in every state a view can reach, each request in flight was built
    from a customer object with a non-empty [id] and carries that [id] as
    its only filter: no request ever leaves with an empty or missing
    [enterprise_customer] filter. *)
Theorem in_flight_requests_well_formed attrs init doc ops :
  Forall issued_by_view
    (in_flight (run_all valid ops (new_view gettext attrs init doc))).
Proof.
  apply reached_keeps_issued.
Qed.

(** The registrations of a state reached are the ones
    [setupToggleListeners] makes. *)
Lemma run_all_keeps_listeners ops w :
  Forall (fun registration => registration ∈ toggle_listeners) (listening w) ->
  Forall (fun registration => registration ∈ toggle_listeners)
    (listening (run_all valid ops w)).
Proof.
  unfold run_all. revert w.
  induction ops as [| op ops IH]; intros w Hall; [exact Hall |].
  cbn [foldl]. apply IH.
  destruct (run_frame valid op w) as (_ & _ & [-> | [_ ->]]); [exact Hall |].
  apply Forall_app. split; [exact Hall |].
  apply Forall_forall. auto.
Qed.

Lemma reached_keeps_listeners attrs init doc ops :
  Forall (fun registration => registration ∈ toggle_listeners)
    (listening (run_all valid ops (new_view gettext attrs init doc))).
Proof.
  apply run_all_keeps_listeners. constructor.
Qed.

End Requests.

(** ** Sessions *)

Section Sessions.

Context (gettext : string -> string).
Context (valid : gmap string value -> gmap string value -> bool).

(** A [set] that does not touch the customer runs no lookup, when the
    registrations are the view's own. *)
Lemma model_set_other_attribute attr v w :
  attr <> "enterprise_customer" ->
  Forall (fun registration => registration ∈ toggle_listeners) (listening w) ->
  model_set (Some {[ attr := v ]}) w
  = Return tt (with_attributes (<[ attr := v ]> (attributes w)) w).
Proof.
  intros Hne Hall. rewrite model_set_world, <- insert_union_singleton_l.
  apply trigger_all_without_firing_lookup.
  eapply Forall_impl; [exact Hall |].
  intros registration Hin Hfetch.
  destruct (fires_toggle_listeners (attributes w) {[ attr := v ]} registration Hin)
    as (attr' & _ & -> & Hattr).
  rewrite (Hattr Hfetch). apply is_changed_absent.
  apply lookup_singleton_ne. exact Hne.
Qed.

(** An operation that throws, in a state whose requests and registrations
    came from the view. *)
Lemma throw_cases op w e w' :
  Forall issued_by_view (in_flight w) ->
  Forall (fun registration => registration ∈ toggle_listeners) (listening w) ->
  run valid op w = Throw e w' ->
  e = TypeError
  /\ readable (default VUndefined (attributes w' !! "enterprise_customer")) = false
  /\ ((op = CallFetchEnterpriseCustomerCatalogs /\ w' = w)
      \/ op = CallCancelButtonClicked).
Proof.
  intros Hall Hregs Hthrow.
  destruct op as [| disable | | | | i succeeded | selector val | texts];
    cbn [run] in Hthrow.
  - destruct (fetch_outcome w) as [[Hc Hcall] | [(_ & _ & Hcall) | (props & _ & _ & Hcall)]];
      rewrite Hcall in Hthrow; try discriminate.
    injection Hthrow as <- <-. auto.
  - discriminate.
  - discriminate.
  - rewrite setup_world in Hthrow. discriminate.
  - rewrite cancel_unfold in Hthrow.
    destruct (_initAttributes w) as [snap |]; [| discriminate].
    destruct (model_set_outcome snap w) as (Hattr & _ & [(w2 & Hcall) | (w2 & Hcall & Hc)]);
      rewrite Hcall in Hthrow; [discriminate |].
    injection Hthrow as <- <-. rewrite Hcall in Hattr. cbn [final_world] in Hattr.
    rewrite Hattr. auto.
  - destruct (in_flight w !! i) as [options |] eqn:Hat.
    + destruct (answer_outcome w i options succeeded Hat) as (w2 & Hcall & _).
      { eapply Forall_lookup_1; eauto. }
      rewrite Hcall in Hthrow. discriminate.
    + unfold answer in Hthrow. rewrite Hat in Hthrow. discriminate.
  - destruct (find_binding selector) as [b |] eqn:Hb; [| discriminate].
    destruct (binding_write_outcome valid b val w)
      as [(_ & _ & Hcall) | (_ & Hfinal & [(w2 & Hcall) | (w2 & Hcall & Hc)])];
      rewrite Hcall in Hthrow; try discriminate.
    exfalso. rewrite binding_write_unfold in Hcall.
    destruct (find_binding_cases selector b Hb)
      as [(Hobs & Hset & _) | [(Hobs & _) | (Hobs & _)]]; rewrite Hobs in *.
    + rewrite Hset, lookup_insert_eq in Hc. discriminate.
    + rewrite model_set_other_attribute in Hcall by (discriminate || assumption).
      destruct (_ && _); discriminate.
    + rewrite model_set_other_attribute in Hcall by (discriminate || assumption).
      destruct (_ && _); discriminate.
  - discriminate.
Qed.

(** X6: in a state a view can reach, an operation that throws is
    [fetchEnterpriseCustomerCatalogs], called as it is or run by cancel as
    the listener of the customer's change; what is thrown is a TypeError,
    and the customer the model holds at that point is null, undefined or
    missing.  A direct call has changed nothing by then.  Answers to
    requests, the toggle, the listeners' setup, the choice of an option
    and writes through the bindings always return. *)
Theorem only_lookup_throws attrs init doc ops op e w' :
  let w := run_all valid ops (new_view gettext attrs init doc) in
  run valid op w = Throw e w' ->
  e = TypeError
  /\ readable (default VUndefined (attributes w' !! "enterprise_customer")) = false
  /\ ((op = CallFetchEnterpriseCustomerCatalogs /\ w' = w)
      \/ op = CallCancelButtonClicked).
Proof.
  intros w. apply throw_cases.
  - apply reached_keeps_issued.
  - apply reached_keeps_listeners.
Qed.

(** X7: a request leaves only for a customer that is an object with a
    non-empty own [id]; a customer stored as anything else that can be
    read, a bare id string for one, gets no request and no console line,
    and every matched catalog select is disabled. *)
Theorem fetch_needs_customer_object w :
  let customer := default VUndefined (attributes w !! "enterprise_customer") in
  let w' := final_world (fetchEnterpriseCustomerCatalogs w) in
  (in_flight w' <> in_flight w ->
     exists props,
       customer = VObj props
       /\ Underscore.isEmpty (own_prop props "id") = false
       /\ in_flight w'
          = in_flight w ++
              [{| data := [("enterprise_customer", own_prop props "id")];
                  captured_enterpriseCustomer := customer |}])
  /\ (readable customer = true -> (forall props, customer <> VObj props) ->
        in_flight w' = in_flight w
        /\ console w' = console w
        /\ attributes w' = attributes w
        /\ catalog_select (page w')
           = jq_attr_disabled true (catalog_select (page w))).
Proof.
  intros customer w'. subst w'.
  destruct (fetch_outcome w) as [[Hc ->] | [(Hc & Hempty & ->) | (props & Hobj & Hid & ->)]];
    fold customer in Hc || fold customer in Hobj.
  - split; [intros Hneq; contradiction Hneq; reflexivity |].
    intros Hread. congruence.
  - split; [intros Hneq; contradiction Hneq; reflexivity |].
    intros _ _. repeat split.
  - split.
    + intros _. exists props. rewrite Hobj. auto.
    + intros _ Hnot. destruct (Hnot props Hobj).
Qed.

(** X8: the answers to two requests, in whatever order the requests were
    made: the catalog selects end up as the second answer alone leaves
    them, enabled on success and disabled on error.  The first answer
    leaves no trace on the control, and neither answer looks at the
    customer the model holds by then. *)
Theorem last_answer_decides_control attrs init doc ops i j (first last : bool) :
  let w := run_all valid ops (new_view gettext attrs init doc) in
  let w1 := final_world (answer i first w) in
  is_Some (in_flight w1 !! j) ->
  exists w2, answer j last w1 = Return VUndefined w2
    /\ catalog_select (page w2)
       = jq_attr_disabled (negb last) (catalog_select (page w))
    /\ attributes w2 = attributes w.
Proof.
  intros w w1 [options Hat].
  assert (Forall issued_by_view (in_flight w1)) as Hall1.
  { apply (run_keeps_issued valid (FetchAnswered i first)).
    apply reached_keeps_issued. }
  destruct (answer_outcome w1 j options last Hat) as (w2 & Hcall & _ & Hsel & _ & Hattr & _).
  { eapply Forall_lookup_1; eauto. }
  exists w2. split; [exact Hcall |]. rewrite Hsel, Hattr. subst w1.
  destruct (in_flight w !! i) as [first_options |] eqn:Hfirst.
  - destruct (answer_outcome w i first_options first Hfirst)
      as (w1 & Hcall1 & _ & Hsel1 & _ & Hattr1 & _).
    { eapply Forall_lookup_1; [apply reached_keeps_issued | eauto]. }
    rewrite Hcall1. cbn [final_world]. rewrite Hsel1, Hattr1.
    split; [apply jq_attr_disabled_twice | reflexivity].
  - unfold answer at 1 2. rewrite Hfirst. cbn [final_world]. auto.
Qed.

End Sessions.

(** ** Edits and cancel *)

Section Edits.

Context (gettext : string -> string).
Context (valid : gmap string value -> gmap string value -> bool).

(** How one operation changes the attributes. *)
Lemma run_attributes op w :
  attributes (final_world (run valid op w)) = attributes w
  \/ (exists snap, _initAttributes w = Some snap
        /\ attributes (final_world (run valid op w)) = snap ∪ attributes w)
  \/ (exists selector b val, find_binding selector = Some b
        /\ attributes (final_world (run valid op w))
           = <[ observe b := onSet b (page w) val ]> (attributes w)).
Proof.
  destruct op as [| disable | | | | i succeeded | selector val | texts]; cbn [run].
  - left. apply fetch_lookup_frame.
  - left. reflexivity.
  - left. reflexivity.
  - left. rewrite setup_world. reflexivity.
  - destruct (_initAttributes w) as [snap |] eqn:Hsnap.
    + right. left. exists snap. split; [reflexivity |].
      apply cancel_attributes, Hsnap.
    + left. rewrite (cancel_without_snapshot w Hsnap). reflexivity.
  - left. apply answer_frame.
  - destruct (find_binding selector) as [b |] eqn:Hb; [| left; reflexivity].
    destruct (binding_write_attributes valid b val w) as [-> | ->].
    + left. reflexivity.
    + right. right. exists selector, b, val. split; [exact Hb | reflexivity].
  - left. reflexivity.
Qed.

(** No operation replaces the snapshot. *)
Lemma run_keeps_snapshot op w :
  _initAttributes (final_world (run valid op w)) = _initAttributes w.
Proof. apply run_frame. Qed.

(** An invariant of the attributes that cancel and the writes keep holds
    in every state reached. *)
Lemma run_all_attributes (P : gmap string value -> Prop) init :
  (forall snap attrs, init = Some snap -> P attrs -> P (snap ∪ attrs)) ->
  (forall selector b val doc attrs, find_binding selector = Some b ->
      P attrs -> P (<[ observe b := onSet b doc val ]> attrs)) ->
  forall ops w, _initAttributes w = init -> P (attributes w) ->
    _initAttributes (run_all valid ops w) = init
    /\ P (attributes (run_all valid ops w)).
Proof.
  intros Hcancel Hwrite. unfold run_all.
  induction ops as [| op ops IH]; intros w Hinit HP; [auto |].
  cbn [foldl]. apply IH.
  - rewrite run_keeps_snapshot. exact Hinit.
  - destruct (run_attributes op w)
      as [-> | [(snap & Hsnap & ->) | (selector & b & val & Hb & ->)]].
    + exact HP.
    + apply Hcancel; [congruence | exact HP].
    + eapply Hwrite; eauto.
Qed.

Lemma with_attributes_same w : with_attributes (attributes w) w = w.
Proof. destruct w. reflexivity. Qed.

(** X9: cancel leaves the snapshot and the listeners as they are and
    calls off no request in flight; an attribute the snapshot does not
    record keeps the value it has; when no registration of the lookup
    fires (none is registered, or the restore does not change the
    customer) the catalog selects, the console and the requests in flight
    stay and cancel returns; and a second cancel changes nothing. *)
Theorem cancel_frame_and_idempotent w :
  let w1 := final_world (cancelButtonClicked w) in
  _initAttributes w1 = _initAttributes w
  /\ listening w1 = listening w
  /\ (exists sent, Forall issued_by_view sent
        /\ in_flight w1 = in_flight w ++ sent)
  /\ (forall snap attr, _initAttributes w = Some snap -> snap !! attr = None ->
        attributes w1 !! attr = attributes w !! attr)
  /\ (forall snap, _initAttributes w = Some snap ->
        Forall (fun registration =>
                  snd registration = FetchEnterpriseCustomerCatalogs ->
                  fires (attributes w) snap (fst registration) = false)
          (listening w) ->
        cancelButtonClicked w = Return VUndefined w1
        /\ catalog_select (page w1) = catalog_select (page w)
        /\ console w1 = console w
        /\ in_flight w1 = in_flight w)
  /\ cancelButtonClicked w1 = Return VUndefined w1.
Proof.
  cbn zeta. destruct (_initAttributes w) as [snap |] eqn:Hsnap.
  - rewrite (cancel_final_world w snap Hsnap).
    destruct (model_set_frame (Some snap) w) as (Hi & Hl & _ & _ & Hsent).
    destruct (model_set_outcome snap w) as (Hattr & _ & _).
    split; [congruence |]. split; [exact Hl |]. split; [exact Hsent |].
    split; [| split].
    + intros snap' attr [= <-] Hnone. rewrite Hattr.
      apply lookup_union_r, Hnone.
    + intros snap' [= <-] Hquiet. rewrite cancel_unfold, Hsnap.
      rewrite model_set_world,
        (trigger_all_without_firing_lookup _ _ _ Hquiet).
      repeat split.
    + set (w1 := final_world (model_set (Some snap) w)) in *.
      rewrite cancel_unfold, Hi, Hsnap, model_set_world, Hattr.
      rewrite trigger_all_silent.
      * rewrite (assoc_L (∪)), (idemp_L (∪)), <- Hattr, with_attributes_same.
        reflexivity.
      * apply Forall_forall. intros registration _. apply fires_nothing_twice.
  - rewrite (cancel_without_snapshot w Hsnap). cbn [final_world].
    split; [exact Hsnap |]. split; [reflexivity |].
    split; [exists []; split; [constructor | symmetry; apply app_nil_r] |].
    split; [intros snap attr Habs; discriminate |].
    split; [intros snap Habs; discriminate |].
    apply cancel_without_snapshot, Hsnap.
Qed.

(** X10: when the snapshot records every bound attribute of a view that
    started from it, no run of operations keeps cancel from restoring it:
    after cancel the model's attributes are the snapshot, whole. *)
Theorem edits_then_cancel_restore_snapshot (snap : gmap string value) doc ops :
  Forall (fun entry => is_Some (snap !! observe (snd entry))) couponBindings ->
  attributes
    (final_world
       (cancelButtonClicked
          (run_all valid ops (new_view gettext snap (Some snap) doc))))
  = snap.
Proof.
  intros Hbound.
  destruct (run_all_attributes (fun attrs => dom attrs ⊆ dom snap) (Some snap))
    with (ops := ops) (w := new_view gettext snap (Some snap) doc)
    as [Hinit Hdom].
  - intros snap' attrs [= <-] Hsub. rewrite dom_union_L.
    apply union_least; [reflexivity | exact Hsub].
  - intros selector b val doc' attrs Hb Hsub. rewrite dom_insert_L.
    apply union_least; [| exact Hsub]. apply singleton_subseteq_l.
    apply elem_of_dom.
    unfold couponBindings in Hbound.
    apply Forall_cons in Hbound as [H1 Hbound].
    apply Forall_cons in Hbound as [H2 Hbound].
    apply Forall_cons in Hbound as [H3 _].
    cbn [snd observe] in H1, H2, H3.
    destruct (find_binding_cases selector b Hb)
      as [(-> & _) | [(-> & _) | (-> & _)]]; assumption.
  - reflexivity.
  - reflexivity.
  - apply cancel_gives_snapshot; assumption.
Qed.

(** X11: a write through the notify_email binding is stored whatever the
    model's validation says, as null for the empty string and as the value
    otherwise; the attribute is never the empty string afterwards, and no
    other attribute changes.  With the registrations the view makes, the
    write returns and starts no lookup. *)
Theorem notify_email_write_always_stored b val w :
  find_binding "input[name=notify_email]" = Some b ->
  let w' := final_world (binding_write valid b val w) in
  attributes w' !! "notify_email" = Some (notify_email_onSet (page w) val)
  /\ attributes w' !! "notify_email" <> Some (VStr "")
  /\ (forall attr, attr <> "notify_email" ->
        attributes w' !! attr = attributes w !! attr)
  /\ (Forall (fun registration => registration ∈ toggle_listeners) (listening w) ->
        binding_write valid b val w = Return VUndefined w'
        /\ in_flight w' = in_flight w
        /\ catalog_select (page w') = catalog_select (page w)).
Proof.
  intros Hb w'. subst w'. injection Hb as <-.
  match goal with |- context [binding_write valid ?b val w] =>
    rewrite (binding_write_unfold valid b val w);
    pose proof (model_set_outcome {[ observe b := onSet b (page w) val ]} w)
      as (Hattr & _)
  end.
  cbn [setOptions_validate andb observe onSet] in *.
  match goal with |- context [final_world ?o] =>
    assert (final_world o
            = final_world
                (model_set (Some {[ "notify_email" := notify_email_onSet (page w) val ]}) w))
      as Hfinal by (destruct (model_set _ w); reflexivity)
  end.
  rewrite Hfinal, Hattr, <- insert_union_singleton_l.
  split; [apply lookup_insert_eq |]. split; [| split].
  - rewrite lookup_insert_eq. intros [= Habs].
    destruct val as [| | x | n | s | items | props]; try discriminate Habs.
    unfold notify_email_onSet in Habs. cbn [strict_eq_str] in Habs.
    destruct (String.eqb_spec s ""); [discriminate | congruence].
  - intros attr Hne. apply lookup_insert_ne. congruence.
  - intros Hregs.
    rewrite (model_set_other_attribute "notify_email") by (discriminate || assumption).
    repeat split.
Qed.

Lemma notify_email_onSet_not_empty doc (val : value) :
  notify_email_onSet doc val <> VStr "".
Proof.
  destruct val as [| | x | n | s | items | props]; try discriminate.
  unfold notify_email_onSet. cbn [strict_eq_str].
  destruct (String.eqb_spec s ""); [discriminate | congruence].
Qed.

Lemma catalog_onSet_not_empty doc (val : value) :
  enterprise_customer_catalog_onSet doc val <> VStr "".
Proof.
  destruct (catalog_onSet_cases doc val) as [(s & Hne & -> & ->) | ->];
    [congruence | discriminate].
Qed.

(** X12: the empty string never gets into the model as catalog or as
    notification address: if neither the model nor the snapshot holds it
    there at the start, no run of operations puts it there. *)
Theorem model_never_holds_empty_string attrs init doc ops :
  no_empty_string attrs ->
  (forall snap, init = Some snap -> no_empty_string snap) ->
  no_empty_string
    (attributes (run_all valid ops (new_view gettext attrs init doc))).
Proof.
  intros Hattrs Hinit.
  apply (run_all_attributes no_empty_string init); try reflexivity; try assumption.
  - intros snap current Hsnap [Hc Hn]. destruct (Hinit snap Hsnap) as [Hsc Hsn].
    split; intros Habs; apply lookup_union_Some_raw in Habs as [Hl | [_ Hr]];
      contradiction.
  - intros selector b val doc' current Hb [Hc Hn].
    destruct (find_binding_cases selector b Hb)
      as [(-> & _) | [(-> & -> & _) | (-> & -> & _)]].
    + split; rewrite lookup_insert_ne by discriminate; assumption.
    + split.
      * rewrite lookup_insert_eq. intros [= Habs].
        exact (catalog_onSet_not_empty _ _ Habs).
      * rewrite lookup_insert_ne by discriminate. assumption.
    + split.
      * rewrite lookup_insert_ne by discriminate. assumption.
      * rewrite lookup_insert_eq. intros [= Habs].
        exact (notify_email_onSet_not_empty _ _ Habs).
Qed.

(** X13: a view whose model holds a customer that is neither null nor
    undefined, and whose snapshot holds none that is, never throws: every
    operation returns in every state it can reach. *)
Theorem view_with_customer_never_throws attrs init doc ops op :
  (exists c, attrs !! "enterprise_customer" = Some c /\ readable c = true) ->
  (forall snap c, init = Some snap ->
     snap !! "enterprise_customer" = Some c -> readable c = true) ->
  exists r w',
    run valid op (run_all valid ops (new_view gettext attrs init doc))
    = Return r w'.
Proof.
  intros Hattrs Hinit.
  destruct (run_all_attributes
              (fun current => exists c,
                 current !! "enterprise_customer" = Some c /\ readable c = true)
              init)
    with (ops := ops ++ [op]) (w := new_view gettext attrs init doc)
    as [_ (c & Hc & Hread)]; try reflexivity; try assumption.
  - intros snap current Hsnap (c & Hc & Hread).
    destruct (snap !! "enterprise_customer") as [c' |] eqn:Hs.
    + exists c'. split; [apply lookup_union_Some_l, Hs | eauto].
    + exists c. split; [| exact Hread].
      rewrite lookup_union_r by exact Hs. exact Hc.
  - intros selector b val doc' current Hb (c & Hc & Hread).
    destruct (find_binding_cases selector b Hb)
      as [(-> & -> & _) | [(-> & _) | (-> & _)]].
    + eexists. split; [apply lookup_insert_eq | reflexivity].
    + exists c. split; [| exact Hread].
      rewrite lookup_insert_ne by discriminate. exact Hc.
    + exists c. split; [| exact Hread].
      rewrite lookup_insert_ne by discriminate. exact Hc.
  - unfold run_all in Hc. rewrite foldl_app in Hc. cbn [foldl] in Hc.
    fold (run_all valid ops (new_view gettext attrs init doc)) in Hc.
    destruct (run valid op _) as [r w' | e w'] eqn:Hrun; [eauto |].
    apply throw_cases in Hrun as (_ & Habs & _);
      [| apply reached_keeps_issued | apply reached_keeps_listeners].
    cbn [final_world] in Hc. rewrite Hc in Habs.
    change (readable c = false) in Habs. congruence.
Qed.

(** What the five registrations run when [set] assigns the customer
    alone: the lookup, once, if the customer changes. *)
Lemma trigger_toggle_listeners (current : gmap string value) v w :
  trigger_all toggle_listeners (fires current {[ "enterprise_customer" := v ]}) w
  = if negb (Underscore.isEqual
               (default VUndefined (current !! "enterprise_customer")) v)
    then match fetchEnterpriseCustomerCatalogs w with
         | Return _ w' => Return tt w'
         | Throw e w' => Throw e w'
         end
    else Return tt w.
Proof.
  unfold toggle_listeners. cbn [trigger_all].
  change (fires current {[ "enterprise_customer" := v ]} "change:coupon_type")
    with (is_changed current {[ "enterprise_customer" := v ]} "coupon_type").
  change (fires current {[ "enterprise_customer" := v ]} "change:voucher_type")
    with (is_changed current {[ "enterprise_customer" := v ]} "voucher_type").
  change (fires current {[ "enterprise_customer" := v ]} "change:code")
    with (is_changed current {[ "enterprise_customer" := v ]} "code").
  change (fires current {[ "enterprise_customer" := v ]} "change:quantity")
    with (is_changed current {[ "enterprise_customer" := v ]} "quantity").
  change (fires current {[ "enterprise_customer" := v ]} "change:enterprise_customer")
    with (is_changed current {[ "enterprise_customer" := v ]} "enterprise_customer").
  rewrite (is_changed_absent current _ "coupon_type"),
    (is_changed_absent current _ "voucher_type"),
    (is_changed_absent current _ "code"),
    (is_changed_absent current _ "quantity")
    by (apply lookup_singleton_ne; discriminate).
  unfold is_changed. rewrite lookup_singleton_eq.
  unfold mbind, M_bind, mret, M_ret. cbn [run_callback].
  destruct (negb _); [| reflexivity].
  destruct (fetchEnterpriseCustomerCatalogs w); reflexivity.
Qed.

(** X14: choosing a customer, in a view that has set up its listeners
    once: when the model accepts the write of the control value [val],
    the write stores the customer and returns; if that changes the
    customer the lookup runs, once, sending one request filtered by [val]
    when [val] is not empty and otherwise sending nothing and disabling
    the catalog selects; if it does not, no lookup runs. *)
Theorem customer_write_runs_lookup b val w :
  find_binding "select[name=enterprise_customer]" = Some b ->
  valid (attributes w)
    {[ "enterprise_customer" := enterprise_customer_onSet (page w) val ]} = true ->
  listening w = toggle_listeners ->
  let stored := enterprise_customer_onSet (page w) val in
  let changes :=
    negb (Underscore.isEqual
            (default VUndefined (attributes w !! "enterprise_customer")) stored) in
  exists w1, binding_write valid b val w = Return VUndefined w1
    /\ attributes w1 !! "enterprise_customer" = Some stored
    /\ (changes = true -> Underscore.isEmpty val = false ->
          in_flight w1
          = in_flight w ++
              [{| data := [("enterprise_customer", val)];
                  captured_enterpriseCustomer := stored |}]
          /\ catalog_select (page w1) = catalog_select (page w))
    /\ (changes = true -> Underscore.isEmpty val = true ->
          in_flight w1 = in_flight w
          /\ catalog_select (page w1)
             = jq_attr_disabled true (catalog_select (page w)))
    /\ (changes = false ->
          in_flight w1 = in_flight w
          /\ catalog_select (page w1) = catalog_select (page w)
          /\ console w1 = console w).
Proof.
  intros Hb Hvalid Hregs stored changes. injection Hb as <-.
  rewrite binding_write_unfold. cbn [setOptions_validate observe onSet andb].
  fold stored in Hvalid |- *. rewrite Hvalid. cbn [negb].
  rewrite model_set_world, Hregs, trigger_toggle_listeners. fold changes.
  destruct changes.
  - match goal with |- context [fetchEnterpriseCustomerCatalogs ?w0] =>
      rewrite (fetch_with_id w0 stored val)
    end.
    + destruct (Underscore.isEmpty val); eexists; (split; [reflexivity |]);
        (split; [cbn [attributes with_attributes with_page with_in_flight with_console];
                 apply lookup_union_Some_l, lookup_singleton_eq |]);
        repeat split; intros; try discriminate; reflexivity.
    + unfold model_get. cbn [attributes with_attributes].
      rewrite (lookup_union_Some_l _ _ _ stored) by apply lookup_singleton_eq.
      reflexivity.
    + reflexivity.
  - eexists. split; [reflexivity |].
    split; [cbn [attributes with_attributes];
            apply lookup_union_Some_l, lookup_singleton_eq |].
    repeat split; intros; try discriminate; reflexivity.
Qed.

(** X15: every attribute a binding of [couponBindings] observes is among
    the names [getEditableAttributes] returns. *)
Theorem bound_attributes_are_editable w :
  exists names, getEditableAttributes w = Return (VArr names) w
    /\ Forall (fun entry => VStr (observe (snd entry)) ∈ names) couponBindings.
Proof.
  eexists. split; [reflexivity |].
  unfold couponBindings. repeat apply Forall_cons_2; [| | | apply Forall_nil_2];
    cbn [snd observe fmap list_fmap]; apply list_elem_of_In; cbn; tauto.
Qed.

End Edits.

(** ** The sample page, run *)

Import Sample.

Example editing_fetch_leaves :
  in_flight (final_world (fetchEnterpriseCustomerCatalogs editing))
  = [{| data := [("enterprise_customer", VStr "c1")];
        captured_enterpriseCustomer := acme |}].
Proof. vm_compute. reflexivity. Qed.

Example blank_fetch_throws :
  fetchEnterpriseCustomerCatalogs blank = Throw TypeError blank.
Proof. vm_compute. reflexivity. Qed.

Example failed_fetch_console :
  console (final_world (answer 0 false
             (final_world (fetchEnterpriseCustomerCatalogs editing))))
  = [LogStringify "fetching catalogs for " acme;
     LogConcat "Failed to fetch catalogs for " (VStr "Acme")].
Proof. vm_compute. reflexivity. Qed.

Example edited_then_cancelled :
  attributes edited !! "notify_email" = Some (VStr "a@b.c")
  /\ attributes (final_world (cancelButtonClicked edited)) !! "notify_email"
     = Some VNull.
Proof. split; vm_compute; reflexivity. Qed.

(** Under [_.isEmpty] a number has no keys and counts as empty: a numeric
    [id] takes the branch that disables the control. *)
Example numeric_id_disables :
  let w := new_view (fun msgid => msgid)
             {[ "enterprise_customer" := VObj [("id", VNum 7)] ]} None doc in
  in_flight (final_world (fetchEnterpriseCustomerCatalogs w)) = []
  /\ catalog_select (page (final_world (fetchEnterpriseCustomerCatalogs w))) = [true].
Proof. split; vm_compute; reflexivity. Qed.

Lemma fetch_iff_id_not_empty_witness :
  exists w', fetchEnterpriseCustomerCatalogs editing = Return VUndefined w'
    /\ in_flight w'
       = [{| data := [("enterprise_customer", VStr "c1")];
             captured_enterpriseCustomer := acme |}]
    /\ page w' = page editing.
Proof.
  destruct (fetch_iff_id_not_empty editing acme (VStr "c1"))
    as (w' & Hcall & Hiff & Hpage & _).
  - vm_compute. reflexivity.
  - reflexivity.
  - exists w'. split; [exact Hcall |]. split.
    + apply (proj1 Hiff). reflexivity.
    + apply Hpage. reflexivity.
Defined.

Lemma answer_sets_catalog_control_witness :
  let w1 := final_world (fetchEnterpriseCustomerCatalogs editing) in
  (exists w', answer 0 true w1 = Return VUndefined w'
     /\ catalog_select (page w') = [false])
  /\ (exists w', answer 0 false w1 = Return VUndefined w'
        /\ catalog_select (page w') = [true]
        /\ console w' = console w1
             ++ [LogConcat "Failed to fetch catalogs for " (VStr "Acme")]).
Proof.
  intros w1.
  destruct (answer_sets_catalog_control editing w1
              {| data := [("enterprise_customer", VStr "c1")];
                 captured_enterpriseCustomer := acme |} w1 0)
    as [(ws & Hs & Hsel & _) (we & name & He & Hdis & Hname & Hlog)].
  - vm_compute. reflexivity.
  - vm_compute. reflexivity.
  - vm_compute. reflexivity.
  - split.
    + exists ws. split; [exact Hs | exact Hsel].
    + exists we. split; [exact He |]. split; [exact Hdis |].
      injection Hname as <-. exact Hlog.
Defined.



Lemma catalog_onSet_spec_witness :
  enterprise_customer_catalog_onSet doc (VNum 3) = VNull
  /\ enterprise_customer_catalog_onSet doc (VStr "c0ffee") = VStr "c0ffee".
Proof.
  destruct (catalog_onSet_spec doc) as (_ & Hother & Hstring & _).
  split.
  - apply Hother. reflexivity.
  - apply Hstring. discriminate.
Defined.

Lemma notify_email_onSet_spec_witness :
  notify_email_onSet doc (VStr "a@b.c") = VStr "a@b.c".
Proof.
  apply (proj2 (notify_email_onSet_spec doc)). discriminate.
Defined.

Lemma enterprise_customer_transforms_witness :
  enterprise_customer_onGet acme = Normal (VStr "c1")
  /\ enterprise_customer_onSet doc (VStr "c1") = acme.
Proof.
  destruct enterprise_customer_transforms as (_ & _ & Hget & _ & Hset).
  split.
  - destruct (Hget acme) as [Heq _]; [discriminate | discriminate |].
    rewrite Heq. reflexivity.
  - apply Hset. reflexivity.
Defined.

Lemma fetch_throws_without_customer_witness :
  fetchEnterpriseCustomerCatalogs blank = Throw TypeError blank.
Proof.
  destruct (fetch_throws_without_customer blank VNull) as [Hthrow _].
  - vm_compute. reflexivity.
  - apply Hthrow. left. reflexivity.
Defined.

Lemma enterprise_customer_onSet_object_witness :
  exists w', binding_write accept_all
               {| observe := "enterprise_customer";
                  onGet := Some enterprise_customer_onGet;
                  onSet := enterprise_customer_onSet;
                  setOptions_validate := true |} (VStr "") editing
             = Return VUndefined w'
    /\ attributes w' !! "enterprise_customer" <> Some VNull.
Proof.
  destruct (enterprise_customer_onSet_object accept_all) as (_ & _ & Hwrite & _).
  destruct (Hwrite _ (VStr "") editing eq_refl) as (w' & Hcall & Hattr).
  exists w'. split; [exact Hcall |].
  destruct Hattr as [Hsame | [name Hobj]].
  - rewrite Hsame. vm_compute. discriminate.
  - rewrite Hobj. discriminate.
Defined.

Lemma voucherTypes_fixed_witness :
  view_voucherTypes
    (run_all accept_all
       [ ControlChanged "select[name=enterprise_customer]" (VStr "");
         CallFetchEnterpriseCustomerCatalogs;
         CallCancelButtonClicked;
         CallFetchEnterpriseCustomerCatalogs;
         FetchAnswered 0 false ] editing)
  = voucherTypes (fun msgid => msgid).
Proof.
  apply (voucherTypes_fixed (fun msgid => msgid) accept_all). reflexivity.
Defined.

(** ** The scenarios, run *)

Import Scenario.

Example racing_has_two_requests :
  data <$> in_flight racing
  = [[("enterprise_customer", VStr "c2")]; [("enterprise_customer", VStr "c3")]].
Proof. vm_compute. reflexivity. Qed.

(** The address typed into a view whose snapshot does not record
    [notify_email] is still there after cancel. *)
Example typed_email_survives_cancel :
  attributes (final_world (cancelButtonClicked typed_email)) !! "notify_email"
  = Some (VStr "a@b.c").
Proof. vm_compute. reflexivity. Qed.

(** The later lookup is answered first and succeeds, then the earlier one
    fails: the catalog select ends up disabled. *)
Example stale_error_disables :
  catalog_select
    (page (final_world (answer 0 false (final_world (answer 1 true racing)))))
  = [true].
Proof. vm_compute. reflexivity. Qed.

Lemma catalog_binding_round_trip_witness :
  exists shown, enterprise_customer_catalog_onGet VNull = Normal shown
    /\ enterprise_customer_catalog_onSet doc shown = VNull.
Proof.
  apply (proj2 (catalog_binding_round_trip doc)). left. reflexivity.
Defined.

Lemma enterprise_customer_binding_round_trip_witness :
  enterprise_customer_onGet acme = Normal (VStr "c1")
  /\ enterprise_customer_onSet doc (VStr "c1") = acme.
Proof.
  apply (proj2 (enterprise_customer_binding_round_trip doc) (VStr "c1") "Acme").
  reflexivity.
Defined.

Lemma toggle_last_call_wins_witness :
  toggleEnterpriseCatalogField true unrendered = Return VUndefined unrendered.
Proof.
  apply (toggle_last_call_wins false true unrendered). reflexivity.
Defined.

(** Cancel in a view that listens: the customer picked is given up for
    the one of the snapshot, and the lookup runs for it. *)
Example cancel_runs_lookup :
  data <$> in_flight (final_world (cancelButtonClicked racing))
  = [[("enterprise_customer", VStr "c2")]; [("enterprise_customer", VStr "c3")];
     [("enterprise_customer", VStr "c1")]].
Proof. vm_compute. reflexivity. Qed.

Lemma only_lookup_throws_witness :
  readable
    (default VUndefined
       (attributes (final_world (cancelButtonClicked picked))
          !! "enterprise_customer")) = false.
Proof.
  apply (only_lookup_throws (fun msgid => msgid) accept_all
           no_customer (Some no_customer) doc
           [ CallSetupToggleListeners;
             OptionSelected ["Beta"];
             ControlChanged "select[name=enterprise_customer]" (VStr "c2") ]
           CallCancelButtonClicked TypeError
           (final_world (cancelButtonClicked picked))).
  vm_compute. reflexivity.
Defined.

Lemma fetch_needs_customer_object_witness :
  in_flight (final_world (fetchEnterpriseCustomerCatalogs bare_id)) = []
  /\ catalog_select (page (final_world (fetchEnterpriseCustomerCatalogs bare_id)))
     = [true].
Proof.
  destruct (proj2 (fetch_needs_customer_object bare_id)) as (Hf & _ & _ & Hsel).
  - vm_compute. reflexivity.
  - intros props. vm_compute. discriminate.
  - split; [exact Hf | exact Hsel].
Defined.

Lemma last_answer_decides_control_witness :
  exists w2,
    answer 0 false (final_world (answer 1 true racing)) = Return VUndefined w2
    /\ catalog_select (page w2) = [true].
Proof.
  destruct (last_answer_decides_control (fun msgid => msgid) accept_all
              snapshot (Some snapshot) doc two_lookups 1 0 true false)
    as (w2 & Hcall & Hsel & _).
  - vm_compute. eexists. reflexivity.
  - exists w2. split; [exact Hcall | exact Hsel].
Defined.

Lemma cancel_frame_and_idempotent_witness :
  attributes (final_world (cancelButtonClicked typed_email)) !! "notify_email"
  = attributes typed_email !! "notify_email"
  /\ in_flight (final_world (cancelButtonClicked typed_email))
     = in_flight typed_email.
Proof.
  destruct (cancel_frame_and_idempotent typed_email)
    as (_ & _ & _ & Hkeep & Hquiet & _).
  split.
  - apply (Hkeep customer_only); vm_compute; reflexivity.
  - apply (Hquiet customer_only); [vm_compute; reflexivity | constructor].
Defined.

Lemma edits_then_cancel_restore_snapshot_witness :
  attributes
    (final_world
       (cancelButtonClicked
          (run_all accept_all
             (two_lookups
              ++ [ControlChanged "input[name=notify_email]" (VStr "a@b.c");
                  ControlChanged "select[name=enterprise_customer_catalog]"
                    (VStr "c0ffee")])
             (new_view (fun msgid => msgid) bound_snapshot (Some bound_snapshot) doc))))
  = bound_snapshot.
Proof.
  apply (edits_then_cancel_restore_snapshot (fun msgid => msgid) accept_all).
  unfold couponBindings.
  repeat apply Forall_cons_2; [| | | apply Forall_nil_2]; cbn [snd observe].
  - exists acme. vm_compute. reflexivity.
  - exists VNull. vm_compute. reflexivity.
  - exists VNull. vm_compute. reflexivity.
Defined.

(** With the lookup registered for the address, which the view never
    does, the write stores the address and then throws. *)
Example foreign_listener_throws :
  exists w',
    binding_write reject_all
      {| observe := "notify_email"; onGet := None;
         onSet := notify_email_onSet; setOptions_validate := false |}
      (VStr "a@b.c") foreign_listener
    = Throw TypeError w'
    /\ attributes w' !! "notify_email" = Some (VStr "a@b.c").
Proof. eexists. split; vm_compute; reflexivity. Qed.

Lemma notify_email_write_always_stored_witness :
  binding_write reject_all
    {| observe := "notify_email"; onGet := None;
       onSet := notify_email_onSet; setOptions_validate := false |}
    (VStr "a@b.c") racing
  = Return VUndefined
      (final_world
         (binding_write reject_all
            {| observe := "notify_email"; onGet := None;
               onSet := notify_email_onSet; setOptions_validate := false |}
            (VStr "a@b.c") racing)).
Proof.
  destruct (notify_email_write_always_stored reject_all
              {| observe := "notify_email"; onGet := None;
                 onSet := notify_email_onSet; setOptions_validate := false |}
              (VStr "a@b.c") racing)
    as (_ & _ & _ & Hret).
  - reflexivity.
  - apply Hret.
    change (Forall (fun registration => registration ∈ toggle_listeners)
              toggle_listeners).
    apply Forall_forall. auto.
Defined.

Lemma model_never_holds_empty_string_witness :
  no_empty_string
    (attributes
       (run_all accept_all
          [ ControlChanged "select[name=enterprise_customer_catalog]" (VStr "");
            ControlChanged "input[name=notify_email]" (VStr "");
            CallCancelButtonClicked ]
          (new_view (fun msgid => msgid) bound_snapshot (Some bound_snapshot) doc))).
Proof.
  assert (no_empty_string bound_snapshot) as Hsnap
    by (split; vm_compute; discriminate).
  apply (model_never_holds_empty_string (fun msgid => msgid) accept_all).
  - exact Hsnap.
  - intros snap Heq. injection Heq as <-. exact Hsnap.
Defined.

Lemma view_with_customer_never_throws_witness :
  exists r w', run accept_all (FetchAnswered 0 false) racing = Return r w'.
Proof.
  assert (snapshot !! "enterprise_customer" = Some acme) as Hacme
    by (vm_compute; reflexivity).
  apply (view_with_customer_never_throws (fun msgid => msgid) accept_all
           snapshot (Some snapshot) doc two_lookups (FetchAnswered 0 false)).
  - exists acme. split; [exact Hacme | reflexivity].
  - intros snap c Heq Hc. injection Heq as <-.
    rewrite Hacme in Hc. injection Hc as <-. reflexivity.
Defined.

Lemma customer_write_runs_lookup_witness :
  exists w1,
    binding_write accept_all
      {| observe := "enterprise_customer";
         onGet := Some enterprise_customer_onGet;
         onSet := enterprise_customer_onSet;
         setOptions_validate := true |} (VStr "c2") listened
    = Return VUndefined w1
    /\ in_flight w1
       = [{| data := [("enterprise_customer", VStr "c2")];
             captured_enterpriseCustomer :=
               VObj [("id", VStr "c2"); ("name", VStr "Acme")] |}].
Proof.
  destruct (customer_write_runs_lookup accept_all
              {| observe := "enterprise_customer";
                 onGet := Some enterprise_customer_onGet;
                 onSet := enterprise_customer_onSet;
                 setOptions_validate := true |} (VStr "c2") listened)
    as (w1 & Hcall & _ & Hsend & _).
  - reflexivity.
  - reflexivity.
  - reflexivity.
  - exists w1. split; [exact Hcall |]. apply Hsend; vm_compute; reflexivity.
Defined.
